(** * solver_inp_to_xml: the brace-delimited parser and the XML serializer

    A shallow embedding of [Code/Scripts/solver_inp_to_xml.py]
    (classes [DataNode] and [SolverInpConverter]) and the properties of
    its recursive parser and of its serializer.

    Conventions of the embedding.
    - A Python [str] is a [string]; its characters are the code points
      below 256.
    - A Python exception aborts the whole conversion; it is the [Err] result.
      The only exceptions the parser can raise are the [ValueError]s of
      unpacking a list into two names.
    - [parent] back-references are only used by [update_lines_parsed] while
      [parse] runs, when the ancestors of the running node are exactly the
      frames of the call stack.  The [lines_parsed] counters of the running
      node and of its ancestors are therefore kept in a list, the running
      node first and the root last. *)

From Stdlib Require Import String Ascii List Bool Arith Lia.
From Stdlib Require Import DecimalString.
Import ListNotations.
Open Scope list_scope.
Open Scope string_scope.
Open Scope nat_scope.

(** ** Python string primitives *)

Module PyStr.

Definition tab : ascii := "009"%char.
Definition newline : ascii := "010"%char.
Definition dquote : ascii := "034"%char.

Definition str (c : ascii) : string := String c EmptyString.

(** [str.isspace] on one character, for code points below 256. *)
Definition isspace (c : ascii) : bool :=
  let n := nat_of_ascii c in
  ((9 <=? n) && (n <=? 13)) || ((28 <=? n) && (n <=? 32))
  || (n =? 133) || (n =? 160).

Fixpoint lstrip (s : string) : string :=
  match s with
  | EmptyString => EmptyString
  | String c s' => if isspace c then lstrip s' else s
  end.

Fixpoint rstrip (s : string) : string :=
  match s with
  | EmptyString => EmptyString
  | String c s' =>
      match rstrip s' with
      | EmptyString => if isspace c then EmptyString else str c
      | r => String c r
      end
  end.

(** [s.strip()] *)
Definition strip (s : string) : string := rstrip (lstrip s).

(** [s.startswith(p)] *)
Definition startswith (p s : string) : bool := prefix p s.

(** [c in s] for a one-character [c] *)
Fixpoint contains (c : ascii) (s : string) : bool :=
  match s with
  | EmptyString => false
  | String d s' => Ascii.eqb c d || contains c s'
  end.

(** [s[-1]]; the parser only takes it of a non-empty line. *)
Fixpoint last (s : string) : option ascii :=
  match s with
  | EmptyString => None
  | String c EmptyString => Some c
  | String _ s' => last s'
  end.

Fixpoint drop (n : nat) (s : string) : string :=
  match n, s with
  | 0, _ => s
  | S _, EmptyString => EmptyString
  | S k, String _ s' => drop k s'
  end.

(** The first occurrence of [sep] in [s]: the text before it and the text
    after it ([str.partition] without the separator). *)
Fixpoint partition (sep s : string) : option (string * string) :=
  if prefix sep s then Some (EmptyString, drop (String.length sep) s)
  else match s with
       | EmptyString => None
       | String c s' =>
           match partition sep s' with
           | Some (a, b) => Some (String c a, b)
           | None => None
           end
       end.

(** [s.split(sep, 1)]: one or two pieces. *)
Definition split1 (sep s : string) : list string :=
  match partition sep s with
  | Some (a, b) => [a; b]
  | None => [s]
  end.

(** [s.split(sep)], every occurrence from the left, [sep] not empty.
    [skip] counts the characters of a separator that was just matched and
    is still to be passed over.  The result is the piece under construction
    and the pieces after it. *)
Fixpoint split_go (sep : string) (skip : nat) (s : string)
  : string * list string :=
  match s with
  | EmptyString => (EmptyString, [])
  | String c s' =>
      match skip with
      | S k => split_go sep k s'
      | 0 =>
          if prefix sep s
          then (EmptyString,
                let (p, ps) := split_go sep (String.length sep - 1) s' in p :: ps)
          else let (p, ps) := split_go sep 0 s' in (String c p, ps)
      end
  end.

Definition split (sep s : string) : list string :=
  let (p, ps) := split_go sep 0 s in p :: ps.

(** [s.rsplit(sep)] with no [maxsplit], for a one-character [sep]: the scan
    goes from the right, and the pieces are those of [split]. *)
Definition rsplit (sep : ascii) (s : string) : list string :=
  split (str sep) s.

(** [s.replace(old, new)] for a one-character [old]. *)
Fixpoint replace (old : ascii) (new : string) (s : string) : string :=
  match s with
  | EmptyString => EmptyString
  | String c s' =>
      if Ascii.eqb c old then new ++ replace old new s'
      else String c (replace old new s')
  end.

(** [c * n] *)
Fixpoint repeat (c : ascii) (n : nat) : string :=
  match n with
  | 0 => EmptyString
  | S k => String c (repeat c k)
  end.

(** [x in xs] for a list of strings *)
Definition mem (x : string) (xs : list string) : bool :=
  existsb (String.eqb x) xs.

(** [sub in s] for a string [sub] *)
Fixpoint contains_str (sub s : string) : bool :=
  if prefix sub s then true
  else match s with
       | EmptyString => false
       | String _ s' => contains_str sub s'
       end.

(** [s.replace(old, new)], every occurrence from the left, [old] not
    empty; [skip] is as in [split_go]. *)
Fixpoint replace_go (old new : string) (skip : nat) (s : string) : string :=
  match s with
  | EmptyString => EmptyString
  | String c s' =>
      match skip with
      | S k => replace_go old new k s'
      | 0 =>
          if prefix old s
          then new ++ replace_go old new (String.length old - 1) s'
          else String c (replace_go old new 0 s')
      end
  end.

Definition replace_str (old new s : string) : string :=
  replace_go old new 0 s.

(** [str(n)] for a number that is not negative *)
Definition of_nat (n : nat) : string :=
  NilEmpty.string_of_uint (Nat.to_uint n).

(** [xs == ys] for lists of strings *)
Fixpoint list_eqb (xs ys : list string) : bool :=
  match xs, ys with
  | [], [] => true
  | x :: xs', y :: ys' => String.eqb x y && list_eqb xs' ys'
  | _, _ => false
  end.

End PyStr.

(** ** Exceptions *)

(** The [ValueError]s of unpacking a list into two names, and the
    [AttributeError] of an attribute taken of [None].  An exception holds
    nothing else: neither the input line nor its index. *)
Inductive exn : Type :=
| NotEnoughValues (expected got : nat)
| TooManyValues (expected : nat)
| AttributeError.

Inductive result (A : Type) : Type :=
| Ok (a : A)
| Err (e : exn).
Arguments Ok {A} a.
Arguments Err {A} e.

Definition bind {A B : Type} (r : result A) (k : A -> result B) : result B :=
  match r with
  | Ok a => k a
  | Err e => Err e
  end.

Notation "' p <- r ;; k" := (bind r (fun p => k))
  (at level 61, p pattern, r at next level, right associativity).

(** [a, b = xs] *)
Definition unpack2 (xs : list string) : result (string * string) :=
  match xs with
  | [a; b] => Ok (a, b)
  | [] => Err (NotEnoughValues 2 0)
  | [_] => Err (NotEnoughValues 2 1)
  | _ => Err (TooManyValues 2)
  end.

(** ** class DataNode *)

Module DataNode.
Import PyStr.

(** The attributes of a node.  [root] and [parent] are references into the
    tree under construction and carry no data of their own; [key_to_attr]
    is the same table in every node, the constant below; [xmllist] is empty
    from the constructor until [format_for_xml] computes it. *)
#[warnings="-register-all"]
Inductive t : Type :=
  mk { key : string;
       value : string;
       is_root : bool;
       level : nat;
       lines_parsed : nat;
       children : list t }.

(** A map of keys to attributes for certain xml tags. *)
Definition key_to_attr : list (string * string) :=
  [ ("svFSIFile", "version");
    ("Add_face", "name");
    ("Add_mesh", "name");
    ("Add_projection", "name");
    ("Add_equation", "type");
    ("Domain", "id");
    ("Viscosity", "model");
    ("Constitutive_model", "type");
    ("LS", "type");
    ("Linear_algebra", "type");
    ("Output", "type");
    ("Add_BC", "name") ].

(** [key_to_attr[k]], [None] when [k not in key_to_attr.keys()] *)
Fixpoint get (d : list (string * string)) (k : string) : option string :=
  match d with
  | [] => None
  | (k', v) :: d' => if String.eqb k k' then Some v else get d' k
  end.

Definition __init__ (key value : string) (level : nat) (is_root : bool) : t :=
  {| key := if String.eqb key "LS type" then "LS"
            else replace " " "_" key;
     value := if mem value ["true"; "t"] then "1"
              else if mem value ["false"; "f"] then "0"
              else value;
     is_root := is_root;
     level := level;
     lines_parsed := 0;
     children := [] |}.

(** [lines_parsed] of the running node and of its ancestors, the running
    node first. *)
Definition counters : Type := list nat.

(** [self.lines_parsed += 1] *)
Definition incr_self (cs : counters) : counters :=
  match cs with
  | [] => []
  | c :: parents => S c :: parents
  end.

(** [update_lines_parsed]: the node, then its parent, up to the root, whose
    counter is the last of the list. *)
Fixpoint update_lines_parsed (cs : counters) : counters :=
  match cs with
  | [] => []
  | c :: parents => S c :: update_lines_parsed parents
  end.

(** [curr_node.children.append(subnode)] *)
Definition append_child (n : t) (c : t) : t :=
  {| key := key n; value := value n; is_root := is_root n; level := level n;
     lines_parsed := lines_parsed n;
     children := (children n ++ [c])%list |}.

(** The state of a node when its [parse] returns: the children it has
    appended and its counter. *)
Definition parsed (n : t) (kids : list t) (lp : nat) : t :=
  {| key := key n; value := value n; is_root := is_root n; level := level n;
     lines_parsed := lp;
     children := (children n ++ kids)%list |}.

(** The loop of [parse] from position [idx] of [enumerate(lines)], in a node
    of level [level]; [lines] are the lines from [idx] on and [cs] are the
    counters.  The result is the children appended to the node, in order,
    and the counters when the loop ends. *)
Fixpoint parse_from (level idx : nat) (cs : counters) (lines : list string)
  {struct lines} : result (list t * counters) :=
  match lines with
  | [] => Ok ([], cs)
  | raw :: rest =>
      let line := strip raw in
      if startswith "#" line || (String.length line =? 0) then
        (* update lines searched, but don't parse the data *)
        parse_from level (S idx) (incr_self cs) rest
      else if hd 0 cs <=? idx then
        (* parse this line, it has not been read yet *)
        let cs := update_lines_parsed cs in
        if contains "{" line then
          if match last line with
             | Some c => contains "{" (str c)
             | None => false
             end
          then
            (* multiline nested data *)
            '(key, value) <- unpack2 (split1 ": " line) ;;
            '(value, _) <- unpack2 (rsplit " " value) ;;
            let curr_node := __init__ key value (level + 1) false in
            (* curr_node.parse(lines[idx+1:]) *)
            '(kids, cs) <- parse_from (DataNode.level curr_node) 0
                             (lines_parsed curr_node :: cs) rest ;;
            let curr_node := parsed curr_node kids (hd 0 cs) in
            '(more, cs) <- parse_from level (S idx) (tl cs) rest ;;
            Ok (curr_node :: more, cs)
          else
            (* inline nested data *)
            '(node, subnode) <- unpack2 (split " {" line) ;;
            '(node_key, node_value) <- unpack2 (split1 ": " node) ;;
            '(subnode_key, subnode_value) <- unpack2 (split1 ": " subnode) ;;
            let subnode_value := replace "}" "" subnode_value in
            let curr_node := __init__ node_key node_value (level + 1) false in
            let subnode :=
              __init__ subnode_key subnode_value (level + 2) false in
            let curr_node := append_child curr_node subnode in
            '(more, cs) <- parse_from level (S idx) cs rest ;;
            Ok (curr_node :: more, cs)
        else if contains "}" line then
          (* jump one level up in the tree *)
          Ok ([], cs)
        else
          (* no nesting, just add the data to children *)
          '(key, value) <- unpack2 (split1 ": " line) ;;
          '(more, cs) <- parse_from level (S idx) cs rest ;;
          Ok (__init__ key value (level + 1) false :: more, cs)
      else
        parse_from level (S idx) cs rest
  end.

(** [self.parse(lines)], with the counters of the ancestors of [self];
    the result is [self] and these counters after the call. *)
Definition parse (self : t) (parents : counters) (lines : list string)
  : result (t * counters) :=
  '(kids, cs) <- parse_from (level self) 0 (lines_parsed self :: parents)
                   lines ;;
  Ok (parsed self kids (hd 0 cs), tl cs).

(** The value of [xmllist] after [format_for_xml]: a list of lines for a
    node with children, one string for a node without. *)
Inductive xml : Type :=
| XmlList (l : list string)
| XmlStr (s : string).

Definition nl : string := str newline.

(** The general simulation parameters tag of the beginning of the file. *)
Definition gen_sim_params_open : string :=
  "<GeneralSimulationParameters>" ++ nl.
Definition gen_sim_params_close : string :=
  "</GeneralSimulationParameters>" ++ nl.

(** [self.xmllist.extend(child.xmllist)] or [.append(child.xmllist)] *)
Definition extend_or_append (xmllist : list string) (child : xml)
  : list string :=
  match child with
  | XmlList l => (xmllist ++ l)%list
  | XmlStr s => (xmllist ++ [s])%list
  end.

(** The loop over [self.children] of [format_for_xml]; [fmt] is the
    recursive call. *)
Definition format_children (fmt : t -> xml) (self_is_root : bool)
  : bool -> list t -> list string -> list string :=
  fix loop (adding_gen_sim_params : bool) (cs : list t)
           (xmllist : list string) {struct cs} : list string :=
    match cs with
    | [] => xmllist
    | child :: cs' =>
        let close :=
          self_is_root && (0 <? List.length (children child))
          && adding_gen_sim_params in
        let xmllist :=
          if close
          then (xmllist ++ [gen_sim_params_close])%list
          else xmllist in
        let adding_gen_sim_params :=
          if close then false else adding_gen_sim_params in
        loop adding_gen_sim_params cs' (extend_or_append xmllist (fmt child))
    end.

Definition open_tag (self : t) : string :=
  match get key_to_attr (key self) with
  | Some attr =>
      repeat tab (level self - 1) ++ "<" ++ key self ++ " " ++ attr ++ "="
      ++ str dquote ++ value self ++ str dquote ++ " >" ++ nl
  | None => repeat tab (level self - 1) ++ "<" ++ key self ++ ">" ++ nl
  end.

Definition close_tag (self : t) : string :=
  repeat tab (level self - 1) ++ "</" ++ key self ++ ">" ++ nl.

Definition inline_tag (self : t) : string :=
  repeat tab (level self - 1) ++ "<" ++ key self ++ "> " ++ value self
  ++ " </" ++ key self ++ ">" ++ nl.

Fixpoint format_for_xml (self : t) : xml :=
  match children self with
  | [] =>
      (* no children so we have an inline xml tag and will use a string *)
      XmlStr (inline_tag self)
  | _ :: _ =>
      let xmllist := if level self =? 1 then [nl] else [] in
      let xmllist := (xmllist ++ [open_tag self])%list in
      let xmllist :=
        if is_root self
        then (xmllist ++ [nl; gen_sim_params_open])%list
        else xmllist in
      let xmllist :=
        format_children format_for_xml (is_root self) true (children self)
          xmllist in
      XmlList (xmllist ++ [close_tag self])%list
  end.

End DataNode.

(** ** class SolverInpConverter *)

Module SolverInpConverter.
Import PyStr.

(** [parsed_data] is never used and is left out. *)
Record t : Type :=
  mk { inp_file : string;
       xml_file : string;
       data_root : option DataNode.t;
       lines : list string }.

Definition __init__ (inp_file xml_file : string) : t :=
  {| inp_file := inp_file; xml_file := xml_file;
     data_root := None; lines := [] |}.

(** [parse_inp_file]; [file_lines] is what [f.readlines()] returns for
    [self.inp_file]. *)
Definition parse_inp_file (self : t) (file_lines : list string) : result t :=
  (* initialize the root of the data tree *)
  let data_root := DataNode.__init__ "svFSIFile" "0.1" 0 true in
  (* parse the data and create data tree *)
  '(data_root, _) <- DataNode.parse data_root [] file_lines ;;
  Ok {| inp_file := inp_file self; xml_file := xml_file self;
        data_root := Some data_root; lines := file_lines |}.

Definition xml_header : string :=
  "<?xml version=" ++ str dquote ++ "1.0" ++ str dquote ++ " encoding="
  ++ str dquote ++ "UTF-8" ++ str dquote ++ "?>" ++ DataNode.nl.

(** [for line in xmllist]: the elements of a list, the characters of a
    string. *)
Definition iterate (x : DataNode.xml) : list string :=
  match x with
  | DataNode.XmlList l => l
  | DataNode.XmlStr s => map str (list_ascii_of_string s)
  end.

(** [convert_to_xml]: the strings written to [self.xml_file], in order.
    The content of the file is their concatenation. *)
Definition convert_to_xml (self : t) : result (list string) :=
  match data_root self with
  | Some root => Ok (xml_header :: iterate (DataNode.format_for_xml root))
  | None => Err AttributeError
  end.

(** The script: both steps on a new converter. *)
Definition main (inp_file xml_file : string) (file_lines : list string)
  : result (list string) :=
  let converter := __init__ inp_file xml_file in
  '(converter) <- parse_inp_file converter file_lines ;;
  convert_to_xml converter.

End SolverInpConverter.

(** ** compare_conversion *)

Module CompareConversion.
Import PyStr.

(** The exception of [xml_ref[idx]] past the end of the list. *)
Inductive exn : Type := IndexError.

(** [[line.strip() for line in f.readlines() if line.strip()]] *)
Definition read_stripped (file_lines : list string) : list string :=
  map strip
    (filter (fun line => negb (String.length (strip line) =? 0)) file_lines).

(** remove whitespace from the lines *)
Definition remove_spaces (lines : list string) : list string :=
  map (replace " " "") lines.

(** The element of [xml_ref] after the two tests on [line]: each test
    that holds assigns the replacement made in [line] itself. *)
Definition fix_bools (line : string) : string :=
  let elt := line in
  let elt :=
    if contains_str "true" line then replace_str "true" "1" line else elt in
  let elt :=
    if contains_str "false" line then replace_str "false" "0" line else elt in
  elt.

(** The lines of the converted file and of the reference file as they are
    compared. *)
Definition converted (conv_lines : list string) : list string :=
  remove_spaces (read_stripped conv_lines).

Definition reference (ref_lines : list string) : list string :=
  map fix_bools (remove_spaces (read_stripped ref_lines)).

(** The loop over [enumerate(xml_conv)], from [idx]: what is printed, and
    the exception if there is one. *)
Fixpoint compare_loop (idx : nat) (xml_conv xml_ref : list string)
  : list string * option exn :=
  match xml_conv with
  | [] => ([], None)
  | line :: xml_conv' =>
      match nth_error xml_ref idx with
      | None => ([], Some IndexError)
      | Some ref =>
          let printed :=
            if negb (String.eqb line ref)
            then ["Conversion failed at line " ++ of_nat idx;
                  "CONVERTED: " ++ line;
                  "REFERENCE: " ++ ref]
            else [] in
          let (more, raised) := compare_loop (S idx) xml_conv' xml_ref in
          ((printed ++ more)%list, raised)
      end
  end.

(** [compare_conversion]; the arguments are the lines of the two files. *)
Definition compare_conversion (conv_lines ref_lines : list string)
  : list string * option exn :=
  let xml_ref := reference ref_lines in
  let xml_conv := converted conv_lines in
  match compare_loop 0 xml_conv xml_ref with
  | (printed, Some e) => (printed, Some e)
  | (printed, None) =>
      if list_eqb xml_conv xml_ref
      then ((printed ++ ["Conversion successful"])%list, None)
      else (printed, None)
  end.

End CompareConversion.

(** ** Notions used by the statements *)

Import PyStr.

(** A line that [parse] passes over: empty after [strip], or a comment. *)
Definition is_skipped (raw : string) : bool :=
  startswith "#" (strip raw) || (String.length (strip raw) =? 0).

(** The number of lines of [lines] that are not passed over. *)
Definition consumed (lines : list string) : nat :=
  List.length (filter (fun raw => negb (is_skipped raw)) lines).

(** ['{' in line[-1]]: the line opens a block that goes on below it. *)
Definition opens_block (line : string) : bool :=
  match PyStr.last line with
  | Some c => contains "{" (str c)
  | None => false
  end.

(** [k] added to every counter. *)
Definition advance (k : nat) (cs : DataNode.counters) : DataNode.counters :=
  map (Nat.add k) cs.

(** A node without children, at the given level. *)
Definition leaf (key value : string) (level : nat) : DataNode.t :=
  DataNode.mk key value false level 0 [].

(** What a child adds to the list of lines of its parent. *)
Definition emit (x : DataNode.xml) : list string :=
  DataNode.extend_or_append [] x.

(** The lines of the children of a node that is not the root. *)
Definition emit_children (kids : list DataNode.t) : list string :=
  flat_map (fun c => emit (DataNode.format_for_xml c)) kids.

Definition has_children (n : DataNode.t) : bool :=
  0 <? List.length (DataNode.children n).

(** The lines of [n] are an opening tag with the value of [n] as the
    attribute [attr], lines for what is inside, and the closing tag. *)
Definition attribute_form (n : DataNode.t) (attr : string) : Prop :=
  exists pre body : list string,
    DataNode.format_for_xml n
    = DataNode.XmlList
        (pre
         ++ [(PyStr.repeat tab (DataNode.level n - 1) ++ "<" ++ DataNode.key n
              ++ " " ++ attr ++ "=" ++ str dquote ++ DataNode.value n
              ++ str dquote ++ " >" ++ DataNode.nl)%string]
         ++ body
         ++ [(PyStr.repeat tab (DataNode.level n - 1) ++ "</"
              ++ DataNode.key n ++ ">" ++ DataNode.nl)%string])%list.

(** A line that is neither empty nor a comment and that has no colon and no
    brace. *)
Definition malformed (raw : string) : bool :=
  negb (is_skipped raw) && negb (contains ":" (strip raw))
  && negb (contains "{" (strip raw)) && negb (contains "}" (strip raw)).

(** The error of a malformed line can be described by the content and the
    index of the line: the description is a function of the exception, the
    only thing that the script gives on an error. *)
Definition error_identifies_line : Prop :=
  exists describe : exn -> string * nat,
    forall (before : list string) (raw : string) (after : list string) e,
      Forall (fun l => is_skipped l = true) before ->
      malformed raw = true ->
      SolverInpConverter.main "svFSI.inp" "svFSI.xml"
        (before ++ raw :: after)%list = Err e ->
      describe e = (strip raw, List.length before).

(** ** Notions on trees *)


(** The node and everything below it is what [parse] makes of lines at
    level [lvl]: the level grows by one from a node to its children, no node
    is the root, and no key holds a space. *)
Fixpoint well_formed (lvl : nat) (n : DataNode.t) : bool :=
  match n with
  | DataNode.mk k _ r l _ kids =>
      (l =? lvl) && negb r && negb (contains " " k)
      && forallb (well_formed (S lvl)) kids
  end.

(** The tree without its counters: [lines_parsed] is zero in every node. *)
Fixpoint erase (n : DataNode.t) : DataNode.t :=
  match n with
  | DataNode.mk k v r l _ kids => DataNode.mk k v r l 0 (map erase kids)
  end.

(** The lines that are neither empty nor comments, in order. *)
Definition clean (lines : list string) : list string :=
  filter (fun raw => negb (is_skipped raw)) lines.

(** A line that ends a block: not passed over, with a closing brace and
    without an opening one. *)
Definition closes_block (raw : string) : bool :=
  negb (is_skipped raw) && contains "}" (strip raw)
  && negb (contains "{" (strip raw)).

(** ** Lemmas on the string primitives *)

Section StringFacts.

Lemma prefix_empty (s : string) : prefix "" s = true.
Proof. destruct s; reflexivity. Qed.

Lemma prefix_colon_space (c : ascii) (s : string) :
  prefix ": " (String c s) = true -> c = ":"%char /\ prefix " " s = true.
Proof.
  cbn [prefix]. destruct (ascii_dec ":" c) as [<- | _]; [| discriminate].
  intros H. split; [reflexivity |]. destruct s as [| d s]; [discriminate |].
  exact H.
Qed.

Lemma contains_append (c : ascii) (s u : string) :
  contains c (s ++ u) = contains c s || contains c u.
Proof.
  induction s as [| d s IH]; cbn [contains append]; [reflexivity |].
  rewrite IH. apply orb_assoc.
Qed.

(** A string without a colon has no [": "] to split at. *)
Lemma partition_no_colon (s : string) :
  contains ":" s = false -> partition ": " s = None.
Proof.
  induction s as [| c s IH]; intros H; [reflexivity |].
  cbn [contains] in H. apply orb_false_elim in H as [Hc Hs].
  cbn [partition].
  destruct (prefix ": " (String c s)) eqn:Hp.
  - apply prefix_colon_space in Hp as [-> _]. discriminate.
  - rewrite (IH Hs). reflexivity.
Qed.

(** [key ++ ": " ++ value] is split at the end of [key] when [key] itself
    has no [": "]. *)
Lemma partition_key_value (k v : string) :
  partition ": " k = None -> partition ": " (k ++ ": " ++ v) = Some (k, v).
Proof.
  induction k as [| c k IH]; intros H.
  - cbn [append partition prefix String.length drop].
    destruct (ascii_dec ":" ":") as [_ | N]; [| contradiction].
    destruct (ascii_dec " " " ") as [_ | N]; [| contradiction].
    rewrite prefix_empty. reflexivity.
  - cbn [partition] in H.
    destruct (prefix ": " (String c k)) eqn:Hp; [discriminate |].
    destruct (partition ": " k) as [[a b] |] eqn:Hk; [discriminate |].
    change (String c k ++ ": " ++ v) with (String c (k ++ ": " ++ v)).
    cbn [partition].
    destruct (prefix ": " (String c (k ++ ": " ++ v))) eqn:Hp'.
    + apply prefix_colon_space in Hp' as [-> Hsp].
      destruct k as [| d k]; [discriminate |].
      cbn [prefix append] in Hsp, Hp.
      rewrite prefix_empty in Hsp, Hp.
      destruct (ascii_dec ":" ":") as [_ | N]; [| contradiction].
      destruct (ascii_dec " " d) as [_ | _]; discriminate.
    + rewrite (IH eq_refl). reflexivity.
Qed.

Lemma split1_key_value (k v : string) :
  partition ": " k = None -> split1 ": " (k ++ ": " ++ v) = [k; v].
Proof.
  intros H. unfold split1. rewrite (partition_key_value k v H). reflexivity.
Qed.



Lemma last_append_char (s : string) (c : ascii) :
  PyStr.last (s ++ str c) = Some c.
Proof.
  induction s as [| d s IH]; [reflexivity |].
  cbn [append PyStr.last]. rewrite IH.
  destruct (s ++ str c) eqn:E; [| reflexivity].
  destruct s; discriminate.
Qed.

Lemma prefix_char (c d : ascii) (s : string) :
  prefix (str c) (String d s) = if ascii_dec c d then true else false.
Proof.
  unfold str. cbn [prefix].
  destruct (ascii_dec c d); [apply prefix_empty | reflexivity].
Qed.

Lemma split_go_char (c d : ascii) (s : string) :
  split_go (str c) 0 (String d s)
  = if ascii_dec c d
    then (EmptyString, let (p, ps) := split_go (str c) 0 s in p :: ps)
    else let (p, ps) := split_go (str c) 0 s in (String d p, ps).
Proof.
  cbn [split_go]. rewrite prefix_char. destruct (ascii_dec c d); reflexivity.
Qed.

(** Splitting at a character: the piece before its first occurrence. *)
Lemma split_char_first (c : ascii) (v w : string) :
  contains c v = false ->
  split (str c) (v ++ String c w) = v :: split (str c) w.
Proof.
  unfold split. induction v as [| d v IH]; intros H.
  - cbn [append]. rewrite split_go_char.
    destruct (ascii_dec c c) as [_ | N]; [| contradiction].
    destruct (split_go (str c) 0 w). reflexivity.
  - cbn [contains] in H. apply orb_false_elim in H as [Hd Hv].
    cbn [append]. rewrite split_go_char.
    destruct (ascii_dec c d) as [-> | _].
    + rewrite Ascii.eqb_refl in Hd. discriminate.
    + specialize (IH Hv).
      destruct (split_go (str c) 0 (v ++ String c w)) as [p ps].
      destruct (split_go (str c) 0 w) as [q qs].
      injection IH as -> ->. reflexivity.
Qed.

Lemma split_char_none (c : ascii) (v : string) :
  contains c v = false -> split (str c) v = [v].
Proof.
  unfold split. induction v as [| d v IH]; intros H; [reflexivity |].
  cbn [contains] in H. apply orb_false_elim in H as [Hd Hv].
  rewrite split_go_char. destruct (ascii_dec c d) as [-> | _].
  - rewrite Ascii.eqb_refl in Hd. discriminate.
  - specialize (IH Hv). destruct (split_go (str c) 0 v) as [p ps].
    injection IH as -> ->. reflexivity.
Qed.

(** Every occurrence of the character starts a new piece. *)
Lemma split_char_pieces (c : ascii) (s : string) :
  contains c s = true -> 2 <= List.length (split (str c) s).
Proof.
  unfold split. induction s as [| d s IH]; intros H; [discriminate |].
  rewrite split_go_char. destruct (ascii_dec c d) as [-> | N].
  - destruct (split_go (str d) 0 s). cbn [List.length]. lia.
  - cbn [contains] in H. destruct (Ascii.eqb_spec c d) as [-> | _];
      [contradiction |].
    cbn [orb] in H. specialize (IH H).
    destruct (split_go (str c) 0 s) as [p ps]. exact IH.
Qed.

Lemma append_assoc (s u w : string) : (s ++ u) ++ w = s ++ u ++ w.
Proof.
  induction s as [| c s IH]; cbn [append]; [| rewrite IH]; reflexivity.
Qed.

(** The first occurrence of a character. *)
Lemma contains_first (c : ascii) (s : string) :
  contains c s = true ->
  exists s1 s2, s = s1 ++ String c s2 /\ contains c s1 = false.
Proof.
  induction s as [| d s IH]; intros H; [discriminate |].
  cbn [contains] in H. destruct (Ascii.eqb_spec c d) as [-> | N].
  - exists EmptyString, s. split; reflexivity.
  - cbn [orb] in H. destruct (IH H) as (s1 & s2 & -> & H1).
    exists (String d s1), s2. split; [reflexivity |].
    cbn [contains]. destruct (Ascii.eqb_spec c d); [contradiction |].
    exact H1.
Qed.

Lemma opens_block_brace (s : string) : opens_block (s ++ " {") = true.
Proof.
  unfold opens_block.
  change (s ++ " {") with (s ++ " " ++ str "{").
  rewrite <- append_assoc, last_append_char. reflexivity.
Qed.

Lemma unpack2_too_many (a : string) (l : list string) :
  2 <= List.length l -> unpack2 (a :: l) = Err (TooManyValues 2).
Proof.
  destruct l as [| b [| c l]]; cbn [List.length]; intros H;
    [lia | lia | reflexivity].
Qed.

End StringFacts.

(** ** Sequences of steps that may raise *)

Lemma bind_ok {A B : Type} (r : result A) (k : A -> result B) (b : B) :
  bind r k = Ok b -> exists a, r = Ok a /\ k a = Ok b.
Proof. destruct r as [a | e]; [eauto | discriminate]. Qed.

(** Take the first step of a sequence that succeeds apart. *)
Tactic Notation "bind_inv" hyp(H) "as" simple_intropattern(pat)
       "eqn" ":" ident(E) :=
  let a := fresh "a" in
  apply bind_ok in H as (a & E & H); destruct a as pat;
  cbn beta iota in H.

(** ** The equations of the loop of [parse] *)

Section ParseEquations.
Import DataNode.

Variables (level idx : nat) (cs : counters) (raw : string)
          (rest : list string).

Lemma parse_from_skipped :
  is_skipped raw = true ->
  parse_from level idx cs (raw :: rest)
  = parse_from level (S idx) (incr_self cs) rest.
Proof.
  unfold is_skipped. intros H. cbn [parse_from]. rewrite H. reflexivity.
Qed.

Lemma parse_from_seen :
  is_skipped raw = false -> idx < hd 0 cs ->
  parse_from level idx cs (raw :: rest) = parse_from level (S idx) cs rest.
Proof.
  unfold is_skipped. intros H Hlt. cbn [parse_from]. rewrite H.
  destruct (Nat.leb_spec (hd 0 cs) idx); [lia | reflexivity].
Qed.

Hypothesis not_skipped : is_skipped raw = false.
Hypothesis fresh : hd 0 cs <= idx.

Lemma parse_from_close :
  contains "{" (strip raw) = false -> contains "}" (strip raw) = true ->
  parse_from level idx cs (raw :: rest) = Ok ([], update_lines_parsed cs).
Proof.
  intros H1 H2. unfold is_skipped in not_skipped. cbn [parse_from].
  rewrite not_skipped, H1, H2.
  destruct (Nat.leb_spec (hd 0 cs) idx); [reflexivity | lia].
Qed.

Lemma parse_from_leaf :
  contains "{" (strip raw) = false -> contains "}" (strip raw) = false ->
  parse_from level idx cs (raw :: rest)
  = ('(key, value) <- unpack2 (split1 ": " (strip raw)) ;;
     '(more, cs') <- parse_from level (S idx) (update_lines_parsed cs) rest ;;
     Ok (__init__ key value (level + 1) false :: more, cs')).
Proof.
  intros H1 H2. unfold is_skipped in not_skipped. cbn [parse_from].
  rewrite not_skipped, H1, H2.
  destruct (Nat.leb_spec (hd 0 cs) idx); [reflexivity | lia].
Qed.

Lemma parse_from_inline :
  contains "{" (strip raw) = true -> opens_block (strip raw) = false ->
  parse_from level idx cs (raw :: rest)
  = ('(node, subnode) <- unpack2 (split " {" (strip raw)) ;;
     '(node_key, node_value) <- unpack2 (split1 ": " node) ;;
     '(subnode_key, subnode_value) <- unpack2 (split1 ": " subnode) ;;
     '(more, cs') <- parse_from level (S idx) (update_lines_parsed cs) rest ;;
     Ok (append_child (__init__ node_key node_value (level + 1) false)
           (__init__ subnode_key (replace "}" "" subnode_value) (level + 2)
              false)
         :: more, cs')).
Proof.
  intros H1 H2. unfold is_skipped in not_skipped. unfold opens_block in H2.
  cbn [parse_from]. rewrite not_skipped, H1, H2.
  destruct (Nat.leb_spec (hd 0 cs) idx); [reflexivity | lia].
Qed.

Lemma parse_from_multiline :
  contains "{" (strip raw) = true -> opens_block (strip raw) = true ->
  parse_from level idx cs (raw :: rest)
  = ('(key, value) <- unpack2 (split1 ": " (strip raw)) ;;
     '(value, _) <- unpack2 (rsplit " " value) ;;
     '(kids, cs1) <- parse_from (level + 1) 0
                       (0 :: update_lines_parsed cs) rest ;;
     '(more, cs2) <- parse_from level (S idx) (tl cs1) rest ;;
     Ok (parsed (__init__ key value (level + 1) false) kids (hd 0 cs1)
         :: more, cs2)).
Proof.
  intros H1 H2. unfold is_skipped in not_skipped. unfold opens_block in H2.
  cbn [parse_from]. rewrite not_skipped, H1, H2.
  destruct (Nat.leb_spec (hd 0 cs) idx); [reflexivity | lia].
Qed.

End ParseEquations.

(** ** The shared cursor *)

Section Cursor.
Import DataNode.

Lemma update_lines_parsed_map (cs : counters) :
  update_lines_parsed cs = map S cs.
Proof. induction cs as [| c cs IH]; cbn; [| rewrite IH]; reflexivity. Qed.

Lemma advance_0 (cs : counters) : advance 0 cs = cs.
Proof. unfold advance. cbn. apply map_id. Qed.

Lemma advance_S (k : nat) (cs : counters) :
  advance k (map S cs) = advance (S k) cs.
Proof.
  unfold advance. rewrite map_map. apply map_ext. intros c. lia.
Qed.

Lemma advance_advance (j k : nat) (cs : counters) :
  advance j (advance k cs) = advance (k + j) cs.
Proof.
  unfold advance. rewrite map_map. apply map_ext. intros c. lia.
Qed.

Lemma consumed_cons (raw : string) (lines : list string) :
  consumed (raw :: lines)
  = (if is_skipped raw then 0 else 1) + consumed lines.
Proof. unfold consumed. cbn. destruct (is_skipped raw); reflexivity. Qed.

Lemma consumed_app (l1 l2 : list string) :
  consumed (l1 ++ l2)%list = consumed l1 + consumed l2.
Proof.
  unfold consumed. rewrite filter_app, length_app. reflexivity.
Qed.

Lemma firstn_plus {A : Type} (a b : nat) (l : list A) :
  firstn (a + b) l = (firstn a l ++ firstn b (skipn a l))%list.
Proof.
  revert l. induction a as [| a IH]; intros l; [reflexivity |].
  destruct l as [| x l]; cbn; [now rewrite firstn_nil | now rewrite IH].
Qed.

(** A node whose counter is ahead of its position passes over lines without
    reading them, until the two agree again: the loop goes through [m] lines
    when the counter is ahead by the number of lines that count among
    them. *)
Lemma parse_from_catch_up (m : nat) :
  forall (lines : list string) (level idx g : nat) (parents : counters),
    m <= List.length lines ->
    parse_from level idx
      (idx + consumed (firstn m lines) + g :: parents) lines
    = parse_from level (idx + m) (idx + m + g :: parents) (skipn m lines).
Proof.
  induction m as [| m IH]; intros lines level idx g parents Hm.
  - cbn. rewrite !Nat.add_0_r. reflexivity.
  - destruct lines as [| raw rest]; [cbn in Hm; lia |].
    cbn [List.length] in Hm. cbn [firstn skipn].
    rewrite consumed_cons. destruct (is_skipped raw) eqn:Hs.
    + rewrite parse_from_skipped by assumption. cbn [incr_self].
      replace (S (idx + (0 + consumed (firstn m rest)) + g))
        with (S idx + consumed (firstn m rest) + g) by lia.
      rewrite IH by lia. f_equal; [| f_equal]; lia.
    + rewrite parse_from_seen by (cbn; assumption || lia).
      replace (idx + (1 + consumed (firstn m rest)) + g)
        with (S idx + consumed (firstn m rest) + g) by lia.
      rewrite IH by lia. f_equal; [| f_equal]; lia.
Qed.

(** A node that starts with its counter at its position goes through [m]
    lines: its counter ends [m] higher, the counters of its ancestors end
    higher by the number of lines that count among these [m], and the lines
    after them have no part in the result. *)
Lemma parse_from_extent (n : nat) :
  forall (lines : list string), List.length lines <= n ->
  forall (level idx : nat) (parents : counters) kids cs',
    parse_from level idx (idx :: parents) lines = Ok (kids, cs') ->
    exists m,
      m <= List.length lines
      /\ cs' = idx + m :: advance (consumed (firstn m lines)) parents
      /\ forall m', m <= m' ->
           parse_from level idx (idx :: parents) (firstn m' lines)
           = Ok (kids, cs').
Proof.
  induction n as [| n IH]; intros lines Hlen level idx parents kids cs' H.
  { destruct lines; [| cbn in Hlen; lia]. cbn in H. injection H as <- <-.
    exists 0. rewrite Nat.add_0_r, advance_0.
    repeat split; [lia |]. intros m' _. now rewrite firstn_nil. }
  destruct lines as [| raw rest].
  { cbn in H. injection H as <- <-.
    exists 0. rewrite Nat.add_0_r, advance_0.
    repeat split; [cbn; lia |]. intros m' _. now rewrite firstn_nil. }
  cbn [List.length] in Hlen.
  assert (Hsync : forall k ps, hd 0 (k :: ps) <= k) by (intros; cbn; lia).
  assert (Hcont : forall kids cs',
    parse_from level (S idx) (S idx :: map S parents) rest = Ok (kids, cs') ->
    is_skipped raw = false ->
    exists m,
      m <= List.length (raw :: rest)
      /\ cs' = idx + m :: advance (consumed (firstn m (raw :: rest))) parents
      /\ forall m', m <= m' -> exists m'',
           firstn m' (raw :: rest) = raw :: firstn m'' rest
           /\ parse_from level (S idx) (S idx :: map S parents)
                (firstn m'' rest) = Ok (kids, cs')).
  { intros kids0 cs0 H0 Hs.
    apply IH in H0 as (m & Hm & Hcs & Hstab); [| lia].
    exists (S m). split; [cbn; lia |]. split.
    - cbn [firstn]. rewrite consumed_cons, Hs, Hcs, advance_S.
      f_equal; lia.
    - intros [| m''] Hm'; [lia |]. exists m''. split; [reflexivity |].
      apply Hstab. lia. }
  destruct (is_skipped raw) eqn:Hs.
  - rewrite parse_from_skipped in H by assumption. cbn [incr_self] in H.
    apply IH in H as (m & Hm & Hcs & Hstab); [| lia].
    exists (S m). split; [cbn; lia |]. split.
    + cbn [firstn]. rewrite consumed_cons, Hs, Hcs. f_equal; lia.
    + intros [| m''] Hm'; [lia |]. cbn [firstn].
      rewrite parse_from_skipped by assumption. apply Hstab. lia.
  - destruct (contains "{" (strip raw)) eqn:Hb;
      [destruct (opens_block (strip raw)) eqn:Ho
      | destruct (contains "}" (strip raw)) eqn:Hc].
    + (* a block that goes on below the line *)
      rewrite parse_from_multiline in H by auto.
      bind_inv H as [k v] eqn:E1. bind_inv H as [v' b] eqn:E2.
      bind_inv H as [kids1 cs1] eqn:Hchild.
      bind_inv H as [more cs2] eqn:Hmore.
      injection H as <- <-.
      rewrite update_lines_parsed_map in Hchild. cbn [map] in Hchild.
      destruct (IH rest ltac:(lia) _ _ _ _ _ Hchild)
        as (m1 & Hm1 & Hcs1 & Hstab1).
      set (c1 := consumed (firstn m1 rest)) in *.
      set (ps := advance (S c1) parents).
      assert (Htl : tl cs1 = c1 + S idx :: ps).
      { rewrite Hcs1. cbn [tl]. unfold advance at 1. cbn [map].
        fold (advance c1 (map S parents)). now rewrite advance_S. }
      rewrite Htl in Hmore.
      assert (Hskip : forall body, m1 <= List.length body ->
                consumed (firstn m1 body) = c1 ->
                parse_from level (S idx) (c1 + S idx :: ps) body
                = parse_from level (S idx + m1) (S idx + m1 :: ps)
                    (skipn m1 body)).
      { intros body Hbody Hc1.
        pose proof (parse_from_catch_up m1 body level (S idx) 0 ps Hbody)
          as E.
        rewrite Hc1 in E.
        replace (S idx + c1 + 0) with (c1 + S idx) in E by lia.
        now rewrite Nat.add_0_r in E. }
      rewrite (Hskip rest Hm1 eq_refl) in Hmore.
      destruct (IH (skipn m1 rest) ltac:(rewrite length_skipn; lia)
                  _ _ _ _ _ Hmore) as (m2 & Hm2 & Hcs2 & Hstab2).
      rewrite length_skipn in Hm2.
      exists (S (m1 + m2)). split; [cbn; lia |]. split.
      * cbn [firstn].
        rewrite consumed_cons, Hs, firstn_plus, consumed_app, Hcs2.
        subst ps c1. rewrite advance_advance.
        apply (f_equal2 cons); [lia |].
        apply (f_equal2 advance); [lia | reflexivity].
      * intros [| m''] Hm'; [lia |]. cbn [firstn].
        rewrite parse_from_multiline by auto.
        rewrite E1. cbn [bind]. rewrite E2. cbn [bind].
        rewrite update_lines_parsed_map. cbn [map].
        rewrite (Hstab1 m'') by lia. cbn [bind]. rewrite Htl.
        rewrite Hskip;
          [| rewrite length_firstn; lia
           | rewrite firstn_firstn, Nat.min_l by lia; reflexivity].
        rewrite skipn_firstn_comm.
        rewrite (Hstab2 (m'' - m1)) by lia. reflexivity.
    + (* a block on one line *)
      rewrite parse_from_inline in H by auto.
      bind_inv H as [nd sub] eqn:E1. bind_inv H as [nk nv] eqn:E2.
      bind_inv H as [sk sv] eqn:E3. bind_inv H as [more cs2] eqn:Hmore.
      injection H as <- <-.
      rewrite update_lines_parsed_map in Hmore. cbn [map] in Hmore.
      destruct (Hcont _ _ Hmore eq_refl) as (m & Hm & Hcs & Hstab).
      exists m. split; [assumption |]. split; [assumption |].
      intros m' Hm'. destruct (Hstab m' Hm') as (m'' & -> & Hrest).
      rewrite parse_from_inline by auto.
      rewrite E1. cbn [bind]. rewrite E2. cbn [bind].
      rewrite E3. cbn [bind].
      rewrite update_lines_parsed_map. cbn [map]. rewrite Hrest.
      reflexivity.
    + (* the end of a block *)
      rewrite parse_from_close in H by auto. injection H as <- <-.
      exists 1. split; [cbn; lia |]. split.
      * rewrite update_lines_parsed_map. cbn [map firstn].
        rewrite consumed_cons, Hs. cbn [consumed filter List.length Nat.add].
        apply (f_equal2 cons); [lia | reflexivity].
      * intros [| m''] Hm'; [lia |]. cbn [firstn].
        rewrite parse_from_close by auto. reflexivity.
    + (* a line without nesting *)
      rewrite parse_from_leaf in H by auto.
      bind_inv H as [k v] eqn:E1. bind_inv H as [more cs2] eqn:Hmore.
      injection H as <- <-.
      rewrite update_lines_parsed_map in Hmore. cbn [map] in Hmore.
      destruct (Hcont _ _ Hmore eq_refl) as (m & Hm & Hcs & Hstab).
      exists m. split; [assumption |]. split; [assumption |].
      intros m' Hm'. destruct (Hstab m' Hm') as (m'' & -> & Hrest).
      rewrite parse_from_leaf by auto.
      rewrite E1. cbn [bind].
      rewrite update_lines_parsed_map. cbn [map]. rewrite Hrest.
      reflexivity.
Qed.

Lemma malformed_inv (raw : string) :
  malformed raw = true ->
  is_skipped raw = false /\ contains ":" (strip raw) = false
  /\ contains "{" (strip raw) = false /\ contains "}" (strip raw) = false.
Proof.
  unfold malformed. intros H.
  repeat (apply andb_prop in H as [H ?]).
  repeat split; now apply negb_true_iff.
Qed.

(** The value that the constructor stores. *)
Lemma init_value (k v : string) (lvl : nat) (root : bool) :
  (v = "true" \/ v = "t" -> value (__init__ k v lvl root) = "1")
  /\ (v = "false" \/ v = "f" -> value (__init__ k v lvl root) = "0")
  /\ (v <> "true" -> v <> "t" -> v <> "false" -> v <> "f" ->
      value (__init__ k v lvl root) = v).
Proof.
  cbn [__init__ value mem existsb].
  repeat split.
  - intros [-> | ->]; reflexivity.
  - intros [-> | ->]; reflexivity.
  - intros H1 H2 H3 H4.
    apply String.eqb_neq in H1, H2, H3, H4.
    rewrite H1, H2, H3, H4. reflexivity.
Qed.


(** A malformed line that is read raises the error of unpacking. *)
Lemma parse_from_malformed (level idx c : nat) (parents : counters)
      (raw : string) (rest : list string) :
  c <= idx -> malformed raw = true ->
  parse_from level idx (c :: parents) (raw :: rest)
  = Err (NotEnoughValues 2 1).
Proof.
  intros Hc H. apply malformed_inv in H as (Hs & Hcolon & Hopen & Hclose).
  rewrite parse_from_leaf by assumption.
  unfold split1. rewrite (partition_no_colon _ Hcolon). reflexivity.
Qed.

(** A node whose counter is at its position, on lines [pre] followed by a
    malformed line: either an exception is raised, or the loop of the node
    has ended inside [pre] and the lines after [pre] are not looked at. *)
Lemma parse_from_reaches (n : nat) :
  forall (pre : list string), List.length pre <= n ->
  forall (level idx : nat) (parents : counters) (raw : string)
         (post : list string),
    malformed raw = true ->
    (exists e,
        parse_from level idx (idx :: parents) (pre ++ raw :: post)%list
        = Err e)
    \/ (exists kids cs,
           hd 0 cs <= idx + List.length pre
           /\ forall ext,
               parse_from level idx (idx :: parents) (pre ++ ext)%list
               = Ok (kids, cs)).
Proof.
  induction n as [| n IH]; intros pre Hlen level idx parents raw post Hbad.
  { destruct pre; [| cbn in Hlen; lia]. left. eexists.
    cbn [app]. apply parse_from_malformed; [lia | assumption]. }
  destruct pre as [| l pre].
  { left. eexists.
    cbn [app]. apply parse_from_malformed; [lia | assumption]. }
  cbn [List.length] in Hlen. cbn [app].
  assert (Hsync : forall k ps, hd 0 (k :: ps) <= k) by (intros; cbn; lia).
  (* the loop goes on at the next line *)
  assert (Hcont :
    (exists e,
        parse_from level (S idx) (S idx :: map S parents)
          (pre ++ raw :: post)%list = Err e)
    \/ (exists kids cs,
           hd 0 cs <= S idx + List.length pre
           /\ forall ext,
               parse_from level (S idx) (S idx :: map S parents)
                 (pre ++ ext)%list = Ok (kids, cs))).
  { apply IH; [lia | assumption]. }
  destruct (is_skipped l) eqn:Hs.
  - destruct (IH pre ltac:(lia) level (S idx) parents raw post Hbad)
      as [[e He] | (kids & cs & Hb & Hall)].
    + left. exists e. rewrite parse_from_skipped by assumption. exact He.
    + right. exists kids, cs. split; [cbn [List.length]; lia |].
      intros ext. rewrite parse_from_skipped by assumption. apply Hall.
  - destruct (contains "{" (strip l)) eqn:Hb;
      [destruct (opens_block (strip l)) eqn:Ho
      | destruct (contains "}" (strip l)) eqn:Hc].
    + (* a block that goes on below the line *)
      destruct (unpack2 (split1 ": " (strip l))) as [[k v] | e] eqn:E1.
      2:{ left. exists e. rewrite parse_from_multiline by auto.
          rewrite E1. reflexivity. }
      destruct (unpack2 (rsplit " " v)) as [[v' b] | e] eqn:E2.
      2:{ left. exists e. rewrite parse_from_multiline by auto.
          rewrite E1. cbn [bind]. rewrite E2. reflexivity. }
      destruct (IH pre ltac:(lia) (level + 1) 0 (S idx :: map S parents)
                  raw post Hbad) as [[e He] | (kids1 & cs1 & Hb1 & Hall1)].
      { left. exists e. rewrite parse_from_multiline by auto.
        rewrite E1. cbn [bind]. rewrite E2. cbn [bind].
        rewrite update_lines_parsed_map. cbn [map]. rewrite He.
        reflexivity. }
      pose proof (Hall1 []) as Hnil. rewrite app_nil_r in Hnil.
      destruct (parse_from_extent _ pre (le_n _) _ _ _ _ _ Hnil)
        as (m1 & Hm1 & Hcs1 & _).
      set (c1 := consumed (firstn m1 pre)) in *.
      set (ps := advance (S c1) parents).
      assert (Htl : tl cs1 = c1 + S idx :: ps).
      { rewrite Hcs1. cbn [tl]. unfold advance at 1. cbn [map].
        fold (advance c1 (map S parents)). now rewrite advance_S. }
      assert (Hskip : forall ext,
                parse_from level (S idx) (c1 + S idx :: ps) (pre ++ ext)%list
                = parse_from level (S idx + m1) (S idx + m1 :: ps)
                    (skipn m1 pre ++ ext)%list).
      { intros ext.
        assert (Hle : m1 <= List.length (pre ++ ext)%list)
          by (rewrite length_app; lia).
        pose proof (parse_from_catch_up m1 (pre ++ ext)%list level (S idx) 0
                      ps Hle) as E.
        rewrite firstn_app, skipn_app in E.
        replace (m1 - List.length pre) with 0 in E by lia.
        cbn [firstn skipn] in E. rewrite app_nil_r in E. fold c1 in E.
        replace (S idx + c1 + 0) with (c1 + S idx) in E by lia.
        now rewrite Nat.add_0_r in E. }
      assert (Hstep : forall ext,
                parse_from level idx (idx :: parents) (l :: pre ++ ext)%list
                = ('(more, cs2) <- parse_from level (S idx + m1)
                     (S idx + m1 :: ps) (skipn m1 pre ++ ext)%list ;;
                   Ok (parsed (__init__ k v' (level + 1) false) kids1
                         (hd 0 cs1) :: more, cs2))).
      { intros ext. rewrite parse_from_multiline by auto.
        rewrite E1. cbn [bind]. rewrite E2. cbn [bind].
        rewrite update_lines_parsed_map. cbn [map]. rewrite Hall1.
        cbn [bind]. rewrite Htl, Hskip. reflexivity. }
      destruct (IH (skipn m1 pre) ltac:(rewrite length_skipn; lia) level
                  (S idx + m1) ps raw post Hbad)
        as [[e He] | (kids2 & cs2 & Hb2 & Hall2)].
      * left. exists e. rewrite Hstep, He. reflexivity.
      * right. eexists. exists cs2. rewrite length_skipn in Hb2.
        split; [cbn [List.length]; lia |].
        intros ext. rewrite Hstep, Hall2. reflexivity.
    + (* a block on one line *)
      destruct (unpack2 (split " {" (strip l))) as [[nd sub] | e] eqn:E1.
      2:{ left. exists e. rewrite parse_from_inline by auto.
          rewrite E1. reflexivity. }
      destruct (unpack2 (split1 ": " nd)) as [[nk nv] | e] eqn:E2.
      2:{ left. exists e. rewrite parse_from_inline by auto.
          rewrite E1. cbn [bind]. rewrite E2. reflexivity. }
      destruct (unpack2 (split1 ": " sub)) as [[sk sv] | e] eqn:E3.
      2:{ left. exists e. rewrite parse_from_inline by auto.
          rewrite E1. cbn [bind]. rewrite E2. cbn [bind]. rewrite E3.
          reflexivity. }
      assert (Hstep : forall ext,
                parse_from level idx (idx :: parents) (l :: pre ++ ext)%list
                = ('(more, cs2) <- parse_from level (S idx)
                     (S idx :: map S parents) (pre ++ ext)%list ;;
                   Ok (append_child (__init__ nk nv (level + 1) false)
                         (__init__ sk (replace "}" "" sv) (level + 2) false)
                       :: more, cs2))).
      { intros ext. rewrite parse_from_inline by auto.
        rewrite E1. cbn [bind]. rewrite E2. cbn [bind]. rewrite E3.
        cbn [bind]. rewrite update_lines_parsed_map. reflexivity. }
      destruct Hcont as [[e He] | (kids2 & cs2 & Hb2 & Hall2)].
      * left. exists e. rewrite Hstep, He. reflexivity.
      * right. eexists. exists cs2. split; [cbn [List.length]; lia |].
        intros ext. rewrite Hstep, Hall2. reflexivity.
    + (* the end of a block *)
      right. exists [], (S idx :: map S parents).
      split; [cbn; lia |]. intros ext.
      rewrite parse_from_close by auto.
      rewrite update_lines_parsed_map. reflexivity.
    + (* a line without nesting *)
      destruct (unpack2 (split1 ": " (strip l))) as [[k v] | e] eqn:E1.
      2:{ left. exists e. rewrite parse_from_leaf by auto.
          rewrite E1. reflexivity. }
      assert (Hstep : forall ext,
                parse_from level idx (idx :: parents) (l :: pre ++ ext)%list
                = ('(more, cs2) <- parse_from level (S idx)
                     (S idx :: map S parents) (pre ++ ext)%list ;;
                   Ok (__init__ k v (level + 1) false :: more, cs2))).
      { intros ext. rewrite parse_from_leaf by auto.
        rewrite E1. cbn [bind]. rewrite update_lines_parsed_map.
        reflexivity. }
      destruct Hcont as [[e He] | (kids2 & cs2 & Hb2 & Hall2)].
      * left. exists e. rewrite Hstep, He. reflexivity.
      * right. eexists. exists cs2. split; [cbn [List.length]; lia |].
        intros ext. rewrite Hstep, Hall2. reflexivity.
Qed.

End Cursor.

(** ** The claims on the parser *)

Section ParserClaims.
Import DataNode.

(** C1.  A node whose counter is at its position [idx] reads a line that
    opens a block, with the lines [body] below it, and its loop ends
    normally.  Then: [update_lines_parsed] has added one to the counter of
    the node and of each of its ancestors up to the root; the call of
    [parse] for the new child has gone through the first [m] lines of [body]
    and no other ([m] is the counter of the child when the call returns, and
    the result is that of the call on these [m] lines alone); when that call
    returns the counter of the node and of each ancestor is higher by [c],
    the number of these lines that are neither empty nor a comment, which
    are the lines read at any depth below; and the node, whose loop goes on
    from the top of [body], makes no node of these [m] lines: the nodes after
    the child are those of the loop started at line [m] of [body] with the
    counter equal to the position.  It resumes at the first line after the
    last line of the child, and no line becomes a node twice. *)
Theorem C1_shared_cursor :
  forall (level idx : nat) (parents : counters) (raw : string)
         (body : list string) (nodes : list t) (cs_end : counters),
    is_skipped raw = false ->
    contains "{" (strip raw) = true ->
    opens_block (strip raw) = true ->
    parse_from level idx (idx :: parents) (raw :: body) = Ok (nodes, cs_end) ->
    exists (child : t) (more : list t) (m : nat),
      let c := consumed (firstn m body) in
      let cs_call := 0 :: S idx :: map S parents in
      let cs_return := m :: advance c (S idx :: map S parents) in
      m <= List.length body
      /\ update_lines_parsed (idx :: parents) = S idx :: map S parents
      /\ parse_from (level + 1) 0 cs_call body
         = Ok (children child, cs_return)
      /\ parse_from (level + 1) 0 cs_call (firstn m body)
         = Ok (children child, cs_return)
      /\ lines_parsed child = m
      /\ DataNode.level child = level + 1
      /\ parse_from level (S idx) (tl cs_return) body
         = parse_from level (S idx + m)
             (S idx + m :: advance (S c) parents) (skipn m body)
      /\ parse_from level (S idx + m)
           (S idx + m :: advance (S c) parents) (skipn m body)
         = Ok (more, cs_end)
      /\ nodes = child :: more.
Proof.
  intros level idx parents raw body nodes cs_end Hs Hopen Hblock H.
  rewrite parse_from_multiline in H by (cbn [hd]; auto).
  bind_inv H as [k v] eqn:E1. bind_inv H as [v' b] eqn:E2.
  bind_inv H as [kids cs] eqn:Hchild. bind_inv H as [more cs'] eqn:Hmore.
  injection H as <- <-.
  assert (Hup : update_lines_parsed (idx :: parents) = S idx :: map S parents)
    by (rewrite update_lines_parsed_map; reflexivity).
  rewrite Hup in Hchild.
  destruct (parse_from_extent _ body (le_n _) _ _ _ _ _ Hchild)
    as (m & Hm & Hcs & Hstab).
  cbn [Nat.add] in Hcs.
  assert (Hresume :
            parse_from level (S idx)
              (tl (m :: advance (consumed (firstn m body))
                          (S idx :: map S parents))) body
            = parse_from level (S idx + m)
                (S idx + m :: advance (S (consumed (firstn m body))) parents)
                (skipn m body)).
  { cbn [tl]. unfold advance at 1. cbn [map].
    fold (advance (consumed (firstn m body)) (map S parents)).
    rewrite advance_S.
    pose proof (parse_from_catch_up m body level (S idx) 0
                  (advance (S (consumed (firstn m body))) parents) Hm) as E.
    replace (S idx + consumed (firstn m body) + 0)
      with (consumed (firstn m body) + S idx) in E by lia.
    rewrite Nat.add_0_r in E. exact E. }
  subst cs. rewrite Hresume in Hmore.
  exists (parsed (__init__ k v' (level + 1) false) kids m), more, m.
  cbv zeta.
  split; [exact Hm |]. split; [exact Hup |].
  split; [exact Hchild |]. split; [apply Hstab; lia |].
  split; [reflexivity |]. split; [reflexivity |].
  split; [exact Hresume |]. split; [exact Hmore | reflexivity].
Qed.

Lemma C1_shared_cursor_witness :
  let body := ["  a: 1"; ""; "}"; "b: 2"] in
  exists (child : t) (more : list t) (m : nat),
    let c := consumed (firstn m body) in
    let cs_call := [0; 1] in
    let cs_return := m :: advance c [1] in
    m <= List.length body
    /\ update_lines_parsed [0] = [1]
    /\ parse_from (0 + 1) 0 cs_call body = Ok (children child, cs_return)
    /\ parse_from (0 + 1) 0 cs_call (firstn m body)
       = Ok (children child, cs_return)
    /\ lines_parsed child = m
    /\ DataNode.level child = 0 + 1
    /\ parse_from 0 1 (tl cs_return) body
       = parse_from 0 (1 + m) (1 + m :: advance (S c) []) (skipn m body)
    /\ parse_from 0 (1 + m) (1 + m :: advance (S c) []) (skipn m body)
       = Ok (more, [5])
    /\ [mk "Add_mesh" "msh" false 1 3 [leaf "a" "1" 2]; leaf "b" "2" 1]
       = child :: more.
Proof.
  exact (C1_shared_cursor 0 0 [] "Add mesh: msh {"
           ["  a: 1"; ""; "}"; "b: 2"]
           [mk "Add_mesh" "msh" false 1 3 [leaf "a" "1" 2]; leaf "b" "2" 1]
           [5] eq_refl eq_refl eq_refl eq_refl).
Defined.

(** C10.  A line that is neither empty nor a comment, that has not been
    read yet, and that holds a closing brace and no opening brace ends the
    loop of [parse], whatever else is on the line: the counters are updated
    for the line, no node is made of it, and the lines after it are left to
    the caller. *)
Theorem C10_closing_brace_ends_level :
  forall (level idx c : nat) (parents : counters) (raw : string)
         (rest : list string),
    c <= idx ->
    is_skipped raw = false ->
    contains "}" (strip raw) = true ->
    contains "{" (strip raw) = false ->
    parse_from level idx (c :: parents) (raw :: rest)
    = Ok ([], S c :: map S parents).
Proof.
  intros level idx c parents raw rest Hc Hs Hclose Hopen.
  rewrite parse_from_close by assumption.
  rewrite update_lines_parsed_map. reflexivity.
Qed.

Lemma C10_closing_brace_ends_level_witness :
  parse_from 1 0 [0; 1] ["key: val}"; "a: b"] = Ok ([], [1; 2]).
Proof.
  exact (C10_closing_brace_ends_level 1 0 0 [1] "key: val}" ["a: b"]
           (le_n 0) eq_refl eq_refl eq_refl).
Defined.

(** The line [key: value {] when [value] is one word: the block is parsed,
    and the node of the block is added with its children. *)
Lemma parse_from_block_one_word (level idx c : nat) (parents : counters)
      (raw : string) (rest : list string) (k v : string) :
  c <= idx ->
  strip raw = k ++ ": " ++ v ++ " {" ->
  partition ": " k = None ->
  contains " " v = false ->
  startswith "#" (strip raw) = false ->
  parse_from level idx (c :: parents) (raw :: rest)
  = ('(kids, cs1) <- parse_from (level + 1) 0 (0 :: S c :: map S parents)
                       rest ;;
     '(more, cs2) <- parse_from level (S idx) (tl cs1) rest ;;
     Ok (parsed (__init__ k v (level + 1) false) kids (hd 0 cs1) :: more,
         cs2)).
Proof.
  intros Hc Hline Hk Hv Hhash.
  assert (Hs : is_skipped raw = false).
  { unfold is_skipped. rewrite Hhash, Hline. destruct k; reflexivity. }
  assert (Hopen : contains "{" (strip raw) = true).
  { rewrite Hline, !contains_append. cbn. now rewrite !orb_true_r. }
  assert (Hlast : opens_block (strip raw) = true).
  { rewrite Hline, <- !append_assoc. apply opens_block_brace. }
  rewrite parse_from_multiline by assumption.
  rewrite Hline, (split1_key_value k _ Hk). cbn [unpack2 bind].
  unfold rsplit.
  change (v ++ " {") with (v ++ String " " "{").
  rewrite (split_char_first " " v "{" Hv).
  change (split (str " ") "{") with ["{"]. cbn [unpack2 bind].
  rewrite update_lines_parsed_map. reflexivity.
Qed.

(** The line [key: value {] when [value] has a space: unpacking the pieces
    of [rsplit] raises [ValueError]. *)
Lemma parse_from_block_spaces (level idx c : nat) (parents : counters)
      (raw : string) (rest : list string) (k v : string) :
  c <= idx ->
  strip raw = k ++ ": " ++ v ++ " {" ->
  partition ": " k = None ->
  contains " " v = true ->
  startswith "#" (strip raw) = false ->
  parse_from level idx (c :: parents) (raw :: rest) = Err (TooManyValues 2).
Proof.
  intros Hc Hline Hk Hv Hhash.
  assert (Hs : is_skipped raw = false).
  { unfold is_skipped. rewrite Hhash, Hline. destruct k; reflexivity. }
  assert (Hopen : contains "{" (strip raw) = true).
  { rewrite Hline, !contains_append. cbn. now rewrite !orb_true_r. }
  assert (Hlast : opens_block (strip raw) = true).
  { rewrite Hline, <- !append_assoc. apply opens_block_brace. }
  rewrite parse_from_multiline by assumption.
  rewrite Hline, (split1_key_value k _ Hk). cbn [unpack2 bind].
  unfold rsplit.
  destruct (contains_first " " v Hv) as (v1 & v2 & -> & Hv1).
  rewrite append_assoc.
  change (String " " v2 ++ " {") with (String " " (v2 ++ " {")).
  rewrite (split_char_first " " v1 _ Hv1).
  rewrite unpack2_too_many; [reflexivity |].
  apply split_char_pieces. rewrite contains_append. cbn. apply orb_true_r.
Qed.

(** C2, on the code.  A line [key: value {] whose value has a space inside
    raises [ValueError] (too many values to unpack): no node is made and the
    conversion ends.  The same line with a value of one word makes the node
    and parses the block. *)
Theorem C2_block_value_with_space_raises :
  parse_from 0 0 [0] ["Add BC: lumen inlet {"; "   Type: Neu"; "}"]
  = Err (TooManyValues 2)
  /\ SolverInpConverter.main "svFSI.inp" "svFSI.xml"
       ["Add BC: lumen inlet {"; "   Type: Neu"; "}"]
     = Err (TooManyValues 2)
  /\ parse_from 0 0 [0] ["Add BC: lumen_inlet {"; "   Type: Neu"; "}"]
     = Ok ([mk "Add_BC" "lumen_inlet" false 1 2 [leaf "Type" "Neu" 2]], [3]).
Proof.
  split; [| split].
  - apply (parse_from_block_spaces 0 0 0 [] _ _ "Add BC" "lumen inlet");
      reflexivity || apply le_n.
  - reflexivity.
  - reflexivity.
Qed.

(** C3, on the code.  The block on one line [A: x { B: y }] makes one node
    [A] with one child, but the child has the key ["_B"] and the value
    ["y "]: the text between the braces is split as it is, with the space
    after the opening brace and the space before the closing brace.  When
    [y] holds [" {"] the line raises [ValueError] (too many values to
    unpack).  Without the two spaces, [A: x {B: y}], the child is [B] with
    the value [y]. *)
Theorem C3_inline_block_spaces :
  parse_from 0 0 [0] ["A: x { B: y }"]
  = Ok ([mk "A" "x" false 1 0 [mk "_B" "y " false 2 0 []]], [1])
  /\ parse_from 0 0 [0] ["A: x { B: y {z }"] = Err (TooManyValues 2)
  /\ parse_from 0 0 [0] ["A: x {B: y}"]
     = Ok ([mk "A" "x" false 1 0 [mk "B" "y" false 2 0 []]], [1]).
Proof. repeat split. Qed.

(** C7.  The value stored by the constructor: ["1"] for ["true"] and ["t"],
    ["0"] for ["false"] and ["f"], and the value given for any other
    string. *)
Theorem C7_boolean_values :
  forall (k v : string) (lvl : nat) (root : bool),
    (v = "true" \/ v = "t" -> value (__init__ k v lvl root) = "1")
    /\ (v = "false" \/ v = "f" -> value (__init__ k v lvl root) = "0")
    /\ (v <> "true" -> v <> "t" -> v <> "false" -> v <> "f" ->
        value (__init__ k v lvl root) = v).
Proof. exact init_value. Qed.

Lemma C7_boolean_values_witness :
  value (__init__ "Remesh" "t" 1 false) = "1"
  /\ value (__init__ "Remesh" "false" 1 false) = "0"
  /\ value (__init__ "LS type" "GMRES" 1 false) = "GMRES".
Proof.
  split; [| split].
  - apply (C7_boolean_values "Remesh" "t" 1 false). right. reflexivity.
  - apply (C7_boolean_values "Remesh" "false" 1 false). left. reflexivity.
  - apply (C7_boolean_values "LS type" "GMRES" 1 false);
      apply String.eqb_neq; reflexivity.
Defined.



(** C9, as the code has it.  A line that is neither empty nor a comment and
    that has neither a colon nor a brace: when it is read, at any depth,
    unpacking the one piece of [split] into [key, value] raises
    [ValueError] (not enough values, two expected, one given).  The
    exception is fatal: on a file that holds such a line the script ends
    with an exception, unless the loop of the root has ended before the
    line, at a closing brace of its own, in which case the lines from there
    on have no part in the output. *)
Theorem C9_malformed_line_fatal :
  forall (raw : string),
    malformed raw = true ->
    (forall (level idx c : nat) (parents : counters) (rest : list string),
        c <= idx ->
        parse_from level idx (c :: parents) (raw :: rest)
        = Err (NotEnoughValues 2 1))
    /\ (forall (inp xml : string) (before after : list string),
          (exists e,
              SolverInpConverter.main inp xml (before ++ raw :: after)%list
              = Err e)
          \/ (forall ext,
                SolverInpConverter.main inp xml (before ++ ext)%list
                = SolverInpConverter.main inp xml before)).
Proof.
  intros raw Hbad. split.
  - intros level idx c parents rest Hc.
    apply parse_from_malformed; assumption.
  - intros inp xml before after.
    unfold SolverInpConverter.main, SolverInpConverter.parse_inp_file, parse.
    cbn [__init__ DataNode.level lines_parsed].
    destruct (parse_from_reaches _ before (le_n _) 0 0 [] raw after Hbad)
      as [[e He] | (kids & cs & _ & Hall)].
    + left. exists e. rewrite He. reflexivity.
    + right. intros ext. rewrite (Hall ext).
      pose proof (Hall []) as Hnil. rewrite app_nil_r in Hnil.
      rewrite Hnil. reflexivity.
Qed.

Lemma C9_malformed_line_fatal_witness :
  (forall (level idx c : nat) (parents : counters) (rest : list string),
      c <= idx ->
      parse_from level idx (c :: parents) ("Continue previous" :: rest)
      = Err (NotEnoughValues 2 1))
  /\ (forall (inp xml : string) (before after : list string),
        (exists e,
            SolverInpConverter.main inp xml
              (before ++ "Continue previous" :: after)%list = Err e)
        \/ (forall ext,
              SolverInpConverter.main inp xml (before ++ ext)%list
              = SolverInpConverter.main inp xml before)).
Proof. exact (C9_malformed_line_fatal "Continue previous" eq_refl). Defined.

(** C9, as it is stated: the error of a malformed line does not give the
    content and the index of the line.  Two files with different malformed
    lines end with the same exception. *)
Lemma C9_error_does_not_identify_line : ~ error_identifies_line.
Proof.
  intros [describe H].
  pose proof (H [] "Density" [] (NotEnoughValues 2 1) (Forall_nil _)
                eq_refl eq_refl) as H1.
  pose proof (H [] "Viscosity" [] (NotEnoughValues 2 1) (Forall_nil _)
                eq_refl eq_refl) as H2.
  rewrite H1 in H2. discriminate.
Qed.

End ParserClaims.

(** ** The serializer *)

Section Serializer.
Import DataNode.

Variable fmt : t -> xml.

Lemma extend_or_append_emit (acc : list string) (x : xml) :
  extend_or_append acc x = (acc ++ emit x)%list.
Proof. destruct x; reflexivity. Qed.

(** The loop over the children adds to the list it is given. *)
Lemma format_children_acc (r : bool) (kids : list t) :
  forall (adding : bool) (acc : list string),
    format_children fmt r adding kids acc
    = (acc ++ format_children fmt r adding kids [])%list.
Proof.
  induction kids as [| child kids IH]; intros adding acc; cbn [format_children].
  - now rewrite app_nil_r.
  - rewrite IH. symmetry. rewrite IH. symmetry.
    rewrite !extend_or_append_emit.
    destruct (r && (0 <? List.length (children child)) && adding);
      cbn [app]; rewrite <- ?app_assoc; reflexivity.
Qed.

(** In a node that is not the root the loop puts the lines of the children
    one after the other. *)
Lemma format_children_inner (kids : list t) (adding : bool) :
  format_children fmt false adding kids []
  = flat_map (fun c => emit (fmt c)) kids.
Proof.
  revert adding. induction kids as [| child kids IH]; intros adding;
    cbn [format_children flat_map andb]; [reflexivity |].
  rewrite format_children_acc, IH. reflexivity.
Qed.

(** In the root, once the general simulation parameters tag is closed, it
    is not closed again. *)
Lemma format_children_closed (kids : list t) :
  format_children fmt true false kids []
  = flat_map (fun c => emit (fmt c)) kids.
Proof.
  induction kids as [| child kids IH]; cbn [format_children flat_map];
    [reflexivity |].
  rewrite andb_false_r, format_children_acc, IH. reflexivity.
Qed.

(** In the root, the children without children that come first are added
    while the tag is open. *)
Lemma format_children_leading (leaves kids : list t) :
  Forall (fun n => has_children n = false) leaves ->
  format_children fmt true true (leaves ++ kids)%list []
  = (flat_map (fun c => emit (fmt c)) leaves
     ++ format_children fmt true true kids [])%list.
Proof.
  induction 1 as [| n leaves Hn _ IH]; [reflexivity |].
  cbn [app format_children flat_map]. unfold has_children in Hn.
  rewrite Hn. cbn [andb]. rewrite format_children_acc, IH.
  rewrite extend_or_append_emit. cbn [app]. now rewrite <- app_assoc.
Qed.

(** In the root, the first child with children closes the tag. *)
Lemma format_children_first_block (n : t) (kids : list t) :
  has_children n = true ->
  format_children fmt true true (n :: kids) []
  = (gen_sim_params_close :: emit (fmt n)
     ++ flat_map (fun c => emit (fmt c)) kids)%list.
Proof.
  intros Hn. cbn [format_children]. unfold has_children in Hn.
  rewrite Hn. cbn [andb]. rewrite format_children_acc, format_children_closed.
  rewrite extend_or_append_emit. reflexivity.
Qed.

End Serializer.

Section SerializerClaims.
Import DataNode.

Lemma format_for_xml_leaf (n : t) :
  children n = [] -> format_for_xml n = XmlStr (inline_tag n).
Proof. destruct n as [k v r l lp kids]. cbn. now intros ->. Qed.

Lemma format_for_xml_block (n : t) :
  children n <> [] ->
  format_for_xml n
  = XmlList
      ((if level n =? 1 then [nl] else [])
       ++ [open_tag n]
       ++ (if is_root n then [nl; gen_sim_params_open] else [])
       ++ format_children format_for_xml (is_root n) true (children n) []
       ++ [close_tag n])%list.
Proof.
  destruct n as [k v r l lp kids]. cbn [children level is_root].
  destruct kids as [| c kids]; [contradiction |]. intros _.
  cbn [format_for_xml children level is_root]. f_equal.
  rewrite format_children_acc.
  destruct r, (l =? 1); cbn [app]; rewrite <- ?app_assoc; reflexivity.
Qed.

Lemma emit_leaves (leaves : list t) :
  Forall (fun n => children n = []) leaves ->
  flat_map (fun c => emit (format_for_xml c)) leaves = map inline_tag leaves.
Proof.
  induction 1 as [| n leaves Hn _ IH]; [reflexivity |].
  cbn [flat_map map]. rewrite (format_for_xml_leaf n Hn), IH. reflexivity.
Qed.

(** The root whose first child with children comes after leading children
    without: the tag of the general simulation parameters is opened after
    the opening tag of the root, the leading children are inside, the tag is
    closed once, before the first child with children, and the children
    after it follow one after the other. *)
Lemma format_for_xml_root_wrapper (root block : t) (leaves others : list t) :
  is_root root = true ->
  children root = (leaves ++ block :: others)%list ->
  Forall (fun n => children n = []) leaves ->
  children block <> [] ->
  format_for_xml root
  = XmlList
      ((if level root =? 1 then [nl] else [])
       ++ [open_tag root; nl; gen_sim_params_open]
       ++ map inline_tag leaves
       ++ [gen_sim_params_close]
       ++ emit (format_for_xml block)
       ++ emit_children others
       ++ [close_tag root])%list.
Proof.
  intros Hroot Hkids Hleaves Hblock.
  assert (Hb : has_children block = true).
  { unfold has_children. destruct (children block);
      [contradiction | reflexivity]. }
  assert (Hl : Forall (fun n => has_children n = false) leaves).
  { eapply Forall_impl; [| exact Hleaves].
    intros n Hn. unfold has_children. now rewrite Hn. }
  rewrite format_for_xml_block
    by (rewrite Hkids; destruct leaves; discriminate).
  rewrite Hroot, Hkids.
  rewrite (format_children_leading _ _ _ Hl).
  rewrite (format_children_first_block _ _ _ Hb).
  rewrite (emit_leaves _ Hleaves). unfold emit_children.
  cbn [app]. rewrite <- ?app_assoc. cbn [app]. rewrite <- ?app_assoc.
  reflexivity.
Qed.

(** C4, as the code has it.  A node whose key is in the table of
    attributes and that has children: its lines are the opening tag with the
    value as the attribute of the table, the lines of its children (for the
    root, after the opening of the general simulation parameters) and the
    closing tag, after an empty line when the node is at level one.  The
    same node without children is the one line of an inline tag, with the
    value as text. *)
Theorem C4_attribute_of_node_with_children :
  forall (n : t) (attr : string),
    get key_to_attr (key n) = Some attr ->
    (children n <> [] ->
     exists body,
       format_for_xml n
       = XmlList
           ((if level n =? 1 then [nl] else [])
            ++ [(PyStr.repeat tab (level n - 1) ++ "<" ++ key n ++ " " ++ attr
                 ++ "=" ++ str dquote ++ value n ++ str dquote ++ " >"
                 ++ nl)%string]
            ++ body
            ++ [(PyStr.repeat tab (level n - 1) ++ "</" ++ key n ++ ">"
                 ++ nl)%string])%list
       /\ (is_root n = false -> body = emit_children (children n))
       /\ (is_root n = true ->
           body = nl :: gen_sim_params_open
                  :: format_children format_for_xml true true (children n)
                       []))
    /\ (children n = [] ->
        format_for_xml n
        = XmlStr (PyStr.repeat tab (level n - 1) ++ "<" ++ key n ++ "> "
                  ++ value n ++ " </" ++ key n ++ ">" ++ nl)).
Proof.
  intros n attr Hattr. split.
  - intros Hkids. rewrite (format_for_xml_block n Hkids).
    unfold open_tag, close_tag. rewrite Hattr.
    destruct (is_root n) eqn:Hroot.
    + exists (nl :: gen_sim_params_open
              :: format_children format_for_xml true true (children n) []).
      repeat split. discriminate.
    + exists (format_children format_for_xml false true (children n) []).
      repeat split; [| discriminate].
      intros _. apply format_children_inner.
  - intros Hkids. apply (format_for_xml_leaf n Hkids).
Qed.

Lemma C4_attribute_of_node_with_children_witness :
  let n := mk "Domain" "1" false 2 1 [leaf "Density" "1.0" 3] in
  (children n <> [] ->
   exists body,
     format_for_xml n
     = XmlList
         ((if level n =? 1 then [nl] else [])
          ++ [(PyStr.repeat tab (level n - 1) ++ "<" ++ key n ++ " " ++ "id"
               ++ "=" ++ str dquote ++ value n ++ str dquote ++ " >"
               ++ nl)%string]
          ++ body
          ++ [(PyStr.repeat tab (level n - 1) ++ "</" ++ key n ++ ">"
               ++ nl)%string])%list
     /\ (is_root n = false -> body = emit_children (children n))
     /\ (is_root n = true ->
         body = nl :: gen_sim_params_open
                :: format_children format_for_xml true true (children n) []))
  /\ (children n = [] ->
      format_for_xml n
      = XmlStr (PyStr.repeat tab (level n - 1) ++ "<" ++ key n ++ "> "
                ++ value n ++ " </" ++ key n ++ ">" ++ nl)).
Proof.
  exact (C4_attribute_of_node_with_children
           (mk "Domain" "1" false 2 1 [leaf "Density" "1.0" 3]) "id" eq_refl).
Defined.

(** C4, as it is stated: the node [LS] with the value [GMRES] and no
    children has a key of the table, and its serialization is not an
    opening tag with the attribute [type] followed by a closing tag; it is
    the inline tag with [GMRES] as text. *)
Lemma C4_attribute_leaf_is_inline :
  let n := __init__ "LS type" "GMRES" 1 false in
  get key_to_attr (key n) = Some "type"
  /\ children n = []
  /\ format_for_xml n = XmlStr ("<LS> GMRES </LS>" ++ nl)
  /\ ~ attribute_form n "type".
Proof.
  cbv zeta. repeat split.
  intros (pre & body & H). discriminate H.
Qed.

(** C5, on the code.  For a file of two lines without braces the root has
    two children without children: the tag of the general simulation
    parameters is opened after the opening tag of the root and both
    children are inside, but no child has children and the closing tag of
    the general simulation parameters is never written.  For a file
    without any line the root has no children and is written as an inline
    tag, without the general simulation parameters tag at all. *)
Theorem C5_wrapper_left_open_without_block :
  SolverInpConverter.main "svFSI.inp" "svFSI.xml"
    ["Density: 1.0"; "LS type: GMRES"]
  = Ok [SolverInpConverter.xml_header;
        "<svFSIFile version=" ++ str dquote ++ "0.1" ++ str dquote ++ " >"
        ++ nl;
        nl;
        gen_sim_params_open;
        "<Density> 1.0 </Density>" ++ nl;
        "<LS> GMRES </LS>" ++ nl;
        "</svFSIFile>" ++ nl]
  /\ (forall out,
        SolverInpConverter.main "svFSI.inp" "svFSI.xml"
          ["Density: 1.0"; "LS type: GMRES"] = Ok out ->
        In gen_sim_params_open out /\ ~ In gen_sim_params_close out)
  /\ format_for_xml (__init__ "svFSIFile" "0.1" 0 true)
     = XmlStr ("<svFSIFile> 0.1 </svFSIFile>" ++ nl).
Proof.
  split; [reflexivity |]. split; [| reflexivity].
  intros out H. vm_compute in H. injection H as <-. split.
  - vm_compute. tauto.
  - intros Hin. vm_compute in Hin.
    repeat (destruct Hin as [Hin | Hin]; [discriminate Hin |]).
    exact Hin.
Qed.


End SerializerClaims.

(** ** The constructor *)

Section Constructor.
Import DataNode.

Lemma replace_space_no_space (k : string) :
  contains " " (replace " " "_" k) = false.
Proof.
  induction k as [| c k IH]; [reflexivity |].
  cbn [replace]. destruct (Ascii.eqb_spec c " ") as [-> | N].
  - cbn [append contains]. rewrite IH. reflexivity.
  - cbn [contains]. rewrite IH.
    destruct (Ascii.eqb_spec " " c) as [E | _]; [| reflexivity].
    symmetry in E. contradiction.
Qed.

Lemma replace_space_id (k : string) :
  contains " " k = false -> replace " " "_" k = k.
Proof.
  induction k as [| c k IH]; [reflexivity |].
  cbn [contains replace]. intros H. apply orb_false_elim in H as [Hc Hk].
  rewrite Ascii.eqb_sym in Hc. rewrite Hc, (IH Hk). reflexivity.
Qed.

Lemma init_key_no_space (k v : string) (lvl : nat) (root : bool) :
  contains " " (key (__init__ k v lvl root)) = false.
Proof.
  cbn [__init__ key]. destruct (String.eqb k "LS type"); [reflexivity |].
  apply replace_space_no_space.
Qed.

(** X1.  The key of a new node never holds a space, whatever the key
    given to the constructor. *)
Theorem X1_key_has_no_space :
  forall (k v : string) (lvl : nat) (root : bool),
    contains " " (key (__init__ k v lvl root)) = false.
Proof. exact init_key_no_space. Qed.

Lemma init_key_id (k v : string) (lvl : nat) (root : bool) :
  contains " " k = false -> key (__init__ k v lvl root) = k.
Proof.
  intros Hk. cbn [__init__ key].
  destruct (String.eqb_spec k "LS type") as [E | _].
  - rewrite E in Hk. discriminate.
  - apply replace_space_id, Hk.
Qed.

Lemma init_value_id (k v : string) (lvl : nat) (root : bool) :
  mem v ["true"; "t"; "false"; "f"] = false ->
  value (__init__ k v lvl root) = v.
Proof.
  cbn [__init__ value mem existsb]. intros H.
  repeat (apply orb_false_elim in H as [? H]).
  repeat match goal with E : String.eqb _ _ = false |- _ =>
                   rewrite E; clear E end.
  reflexivity.
Qed.

Lemma init_value_not_boolean (k v : string) (lvl : nat) (root : bool) :
  mem (value (__init__ k v lvl root)) ["true"; "t"; "false"; "f"] = false.
Proof.
  cbn [__init__ value mem existsb].
  destruct (String.eqb_spec v "true") as [-> | N1]; [reflexivity |].
  destruct (String.eqb_spec v "t") as [-> | N2]; [reflexivity |].
  destruct (String.eqb_spec v "false") as [-> | N3]; [reflexivity |].
  destruct (String.eqb_spec v "f") as [-> | N4]; [reflexivity |].
  cbn [orb]. apply String.eqb_neq in N1, N2, N3, N4.
  rewrite N1, N2, N3, N4. reflexivity.
Qed.

(** X2.  The constructor applied to the key and the value of a node it has
    made gives the same key and the same value: a second pass changes
    nothing, and the stored value is never one of the four boolean
    words. *)
Theorem X2_constructor_idempotent :
  forall (k v : string) (lvl lvl' : nat) (root root' : bool),
    let n := __init__ k v lvl root in
    key (__init__ (key n) (value n) lvl' root') = key n
    /\ value (__init__ (key n) (value n) lvl' root') = value n
    /\ mem (value n) ["true"; "t"; "false"; "f"] = false.
Proof.
  intros k v lvl lvl' root root' n. subst n.
  split; [| split].
  - apply init_key_id, init_key_no_space.
  - apply init_value_id, init_value_not_boolean.
  - apply init_value_not_boolean.
Qed.

End Constructor.

(** ** Invariants of the parsed tree *)

Section TreeInvariants.
Import DataNode.

Lemma well_formed_init (k v : string) (lvl : nat) :
  well_formed lvl (__init__ k v lvl false) = true.
Proof.
  cbn [well_formed __init__]. cbn [forallb].
  rewrite Nat.eqb_refl, andb_true_r. cbn [negb andb].
  apply negb_true_iff, (init_key_no_space k v lvl false).
Qed.

Lemma well_formed_parsed (k v : string) (lvl lp : nat) (kids : list t) :
  forallb (well_formed (S lvl)) kids = true ->
  well_formed lvl (parsed (__init__ k v lvl false) kids lp) = true.
Proof.
  intros H. unfold parsed.
  cbn [well_formed __init__ key value is_root level children app].
  rewrite H, Nat.eqb_refl, andb_true_r. cbn [negb andb].
  apply negb_true_iff, (init_key_no_space k v lvl false).
Qed.

(** Every node that the loop of [parse] appends is well formed, one level
    below the running node. *)
Lemma parse_from_well_formed (lines : list string) :
  forall (level idx : nat) (cs : counters) kids cs',
    parse_from level idx cs lines = Ok (kids, cs') ->
    forallb (well_formed (S level)) kids = true.
Proof.
  induction lines as [| raw rest IH]; intros level idx cs kids cs' H.
  { cbn in H. injection H as <- <-. reflexivity. }
  destruct (is_skipped raw) eqn:Hs.
  { rewrite parse_from_skipped in H by assumption. eapply IH, H. }
  destruct (Nat.leb_spec (hd 0 cs) idx) as [Hfresh | Hseen].
  2:{ rewrite parse_from_seen in H by assumption. eapply IH, H. }
  destruct (contains "{" (strip raw)) eqn:Hb;
    [destruct (opens_block (strip raw)) eqn:Ho
    | destruct (contains "}" (strip raw)) eqn:Hc].
  - rewrite parse_from_multiline in H by assumption.
    bind_inv H as [k v] eqn:E1. bind_inv H as [v' b] eqn:E2.
    bind_inv H as [kids1 cs1] eqn:Hchild.
    bind_inv H as [more cs2] eqn:Hmore.
    injection H as <- <-. rewrite Nat.add_1_r in *.
    cbn [forallb]. rewrite (IH _ _ _ _ _ Hmore), andb_true_r.
    apply well_formed_parsed. eapply IH, Hchild.
  - rewrite parse_from_inline in H by assumption.
    bind_inv H as [nd sub] eqn:E1. bind_inv H as [nk nv] eqn:E2.
    bind_inv H as [sk sv] eqn:E3. bind_inv H as [more cs2] eqn:Hmore.
    injection H as <- <-.
    replace (level + 2) with (S (S level)) by lia. rewrite Nat.add_1_r.
    cbn [forallb]. rewrite (IH _ _ _ _ _ Hmore), andb_true_r.
    apply (well_formed_parsed nk nv (S level) 0).
    cbn [forallb]. rewrite well_formed_init. reflexivity.
  - rewrite parse_from_close in H by assumption.
    injection H as <- <-. reflexivity.
  - rewrite parse_from_leaf in H by assumption.
    bind_inv H as [k v] eqn:E1. bind_inv H as [more cs2] eqn:Hmore.
    injection H as <- <-. rewrite Nat.add_1_r.
    cbn [forallb]. rewrite (IH _ _ _ _ _ Hmore), andb_true_r.
    apply well_formed_init.
Qed.

(** X3.  When [parse_inp_file] returns, the tree it has built has the root
    [svFSIFile] with the value [0.1] at level zero, the only node that is
    the root; below it the level grows by one from each node to its
    children, and no key holds a space. *)
Theorem X3_parsed_tree_well_formed :
  forall (self self' : SolverInpConverter.t) (file_lines : list string),
    SolverInpConverter.parse_inp_file self file_lines = Ok self' ->
    exists root,
      SolverInpConverter.data_root self' = Some root
      /\ key root = "svFSIFile" /\ value root = "0.1"
      /\ level root = 0 /\ is_root root = true
      /\ forallb (well_formed 1) (children root) = true.
Proof.
  intros self self' file_lines H.
  unfold SolverInpConverter.parse_inp_file, parse in H.
  bind_inv H as [root cs] eqn:Hparse.
  bind_inv Hparse as [kids cs0] eqn:Hloop.
  injection Hparse as <- _. injection H as <-.
  eexists. split; [reflexivity |]. repeat split.
  cbn [parsed children __init__ app].
  apply (parse_from_well_formed _ _ _ _ _ _ Hloop).
Qed.

Lemma X3_parsed_tree_well_formed_witness :
  exists root,
    SolverInpConverter.data_root
      (SolverInpConverter.mk "svFSI.inp" "svFSI.xml"
         (Some (mk "svFSIFile" "0.1" true 0 3
                  [mk "Add_mesh" "msh" false 1 2
                     [leaf "Mesh_file_path" "m.vtu" 2]]))
         ["Add mesh: msh {"; "  Mesh file path: m.vtu"; "}"])
    = Some root
    /\ key root = "svFSIFile" /\ value root = "0.1"
    /\ level root = 0 /\ is_root root = true
    /\ forallb (well_formed 1) (children root) = true.
Proof.
  exact (X3_parsed_tree_well_formed
           (SolverInpConverter.__init__ "svFSI.inp" "svFSI.xml") _
           ["Add mesh: msh {"; "  Mesh file path: m.vtu"; "}"] eq_refl).
Defined.

End TreeInvariants.

(** ** Lines without effect and blocks without content *)

Section EdgeCases.
Import DataNode.

(** Lines that are passed over only move the position and the counter of
    the running node. *)
Lemma parse_from_blanks (blanks : list string) :
  forall (level idx c : nat) (parents : counters) (rest : list string),
    Forall (fun l => is_skipped l = true) blanks ->
    parse_from level idx (c :: parents) (blanks ++ rest)%list
    = parse_from level (idx + List.length blanks)
        (c + List.length blanks :: parents) rest.
Proof.
  induction blanks as [| raw blanks IH]; intros level idx c parents rest H.
  - cbn. rewrite !Nat.add_0_r. reflexivity.
  - inversion H as [| ? ? Hraw Hblanks]; subst.
    cbn [app]. rewrite parse_from_skipped by assumption. cbn [incr_self].
    rewrite IH by assumption. cbn [List.length].
    f_equal; [| f_equal]; lia.
Qed.

Lemma closes_block_inv (raw : string) :
  closes_block raw = true ->
  is_skipped raw = false /\ contains "}" (strip raw) = true
  /\ contains "{" (strip raw) = false.
Proof.
  unfold closes_block. intros H.
  apply andb_prop in H as [H H3]. apply andb_prop in H as [H1 H2].
  repeat split; [now apply negb_true_iff | assumption
                 | now apply negb_true_iff].
Qed.

(** X7.  A block whose lines, up to the line that closes it, are all empty
    or comments: the node of the block has no children, the loop goes on
    in step after the closing line, and [format_for_xml] writes the node as
    an inline tag with the value as text, as it does for the line
    [key: value], also when the key is in the table of attributes. *)
Theorem X7_empty_block_is_a_leaf :
  forall (level idx : nat) (parents : counters) (raw close : string)
         (blanks rest : list string) (k v : string),
    strip raw = k ++ ": " ++ v ++ " {" ->
    partition ": " k = None ->
    contains " " v = false ->
    startswith "#" (strip raw) = false ->
    Forall (fun l => is_skipped l = true) blanks ->
    closes_block close = true ->
    exists node,
      parse_from level idx (idx :: parents)
        (raw :: blanks ++ close :: rest)%list
      = ('(more, cs) <- parse_from level (idx + 2 + List.length blanks)
                          (idx + 2 + List.length blanks
                           :: advance 2 parents) rest ;;
         Ok (node :: more, cs))
      /\ children node = []
      /\ key node = key (__init__ k v (level + 1) false)
      /\ value node = value (__init__ k v (level + 1) false)
      /\ format_for_xml node
         = XmlStr (PyStr.repeat tab level ++ "<" ++ key node ++ "> "
                   ++ value node ++ " </" ++ key node ++ ">" ++ nl).
Proof.
  intros level idx parents raw close blanks rest k v
         Hline Hk Hv Hhash Hblanks Hclose.
  apply closes_block_inv in Hclose as (Hs & Hc & Ho).
  exists (parsed (__init__ k v (level + 1) false) [] (S (List.length blanks))).
  split.
  - rewrite (parse_from_block_one_word level idx idx parents raw _ k v)
      by (assumption || apply le_n).
    rewrite parse_from_blanks by assumption.
    rewrite parse_from_close by (assumption || (cbn [hd]; lia)).
    cbn [bind update_lines_parsed hd tl Nat.add].
    rewrite parse_from_blanks by assumption.
    rewrite parse_from_seen by (assumption || (cbn [hd]; lia)).
    rewrite !update_lines_parsed_map, map_map.
    unfold advance. cbn [Nat.add].
    replace (idx + 2 + List.length blanks)
      with (S (S (idx + List.length blanks))) by lia.
    reflexivity.
  - repeat split.
    rewrite format_for_xml_leaf by reflexivity.
    unfold inline_tag, parsed. cbn [DataNode.level key value __init__].
    rewrite Nat.add_1_r. cbn [Nat.sub]. rewrite Nat.sub_0_r. reflexivity.
Qed.

Lemma X7_empty_block_is_a_leaf_witness :
  exists node,
    parse_from 0 0 [0] ["Add mesh: msh {"; ""; "# none"; "}"; "Tol: 1"]
    = ('(more, cs) <- parse_from 0 (0 + 2 + 2) [0 + 2 + 2] ["Tol: 1"] ;;
       Ok (node :: more, cs))
    /\ children node = []
    /\ key node = key (__init__ "Add mesh" "msh" (0 + 1) false)
    /\ value node = value (__init__ "Add mesh" "msh" (0 + 1) false)
    /\ format_for_xml node
       = XmlStr (PyStr.repeat tab 0 ++ "<" ++ key node ++ "> "
                 ++ value node ++ " </" ++ key node ++ ">" ++ nl).
Proof.
  apply (X7_empty_block_is_a_leaf 0 0 [] "Add mesh: msh {" "}"
           [""; "# none"] ["Tol: 1"] "Add mesh" "msh");
    try reflexivity.
  repeat constructor.
Defined.

(** X8.  A file without any line, or with empty lines and comments only:
    the root has no children and is written, after the header, as the one
    inline tag [<svFSIFile> 0.1 </svFSIFile>], character by character; no
    exception is raised. *)
Theorem X8_file_without_data :
  forall (inp xml : string) (file_lines : list string),
    Forall (fun l => is_skipped l = true) file_lines ->
    exists out,
      SolverInpConverter.main inp xml file_lines = Ok out
      /\ out = SolverInpConverter.xml_header
               :: map str (list_ascii_of_string
                             ("<svFSIFile> 0.1 </svFSIFile>" ++ nl))
      /\ String.concat "" out
         = SolverInpConverter.xml_header ++ "<svFSIFile> 0.1 </svFSIFile>"
           ++ nl.
Proof.
  intros inp xml file_lines H.
  eexists. split; [| split; [reflexivity |]].
  - unfold SolverInpConverter.main, SolverInpConverter.parse_inp_file, parse.
    cbn [__init__ level lines_parsed].
    pose proof (parse_from_blanks file_lines 0 0 0 [] [] H) as E.
    rewrite app_nil_r in E. rewrite E. reflexivity.
  - reflexivity.
Qed.

Lemma X8_file_without_data_witness :
  exists out,
    SolverInpConverter.main "svFSI.inp" "svFSI.xml" ["# solver"; ""; "   "]
    = Ok out
    /\ out = SolverInpConverter.xml_header
             :: map str (list_ascii_of_string
                           ("<svFSIFile> 0.1 </svFSIFile>" ++ nl))
    /\ String.concat "" out
       = SolverInpConverter.xml_header ++ "<svFSIFile> 0.1 </svFSIFile>"
         ++ nl.
Proof.
  apply (X8_file_without_data "svFSI.inp" "svFSI.xml"
           ["# solver"; ""; "   "]).
  repeat constructor.
Defined.

End EdgeCases.

(** ** Blocks and the general simulation parameters *)

Section Blocks.
Import DataNode.

(** X4.  The line [key: value {] with a value of one word, not a comment
    and not read yet: the loop makes the node of the block one level below
    the running node, with the children that [parse] of the node makes of
    the lines below, and goes on with the counters as that call leaves
    them. *)
Theorem X4_block_of_one_word :
  forall (level idx c : nat) (parents : counters) (raw : string)
         (rest : list string) (k v : string),
    c <= idx ->
    strip raw = k ++ ": " ++ v ++ " {" ->
    partition ": " k = None ->
    contains " " v = false ->
    startswith "#" (strip raw) = false ->
    parse_from level idx (c :: parents) (raw :: rest)
    = ('(kids, cs1) <- parse_from (level + 1) 0 (0 :: S c :: map S parents)
                         rest ;;
       '(more, cs2) <- parse_from level (S idx) (tl cs1) rest ;;
       Ok (parsed (__init__ k v (level + 1) false) kids (hd 0 cs1) :: more,
           cs2)).
Proof. exact parse_from_block_one_word. Qed.

Lemma X4_block_of_one_word_witness :
  parse_from 0 0 [0] ["Add equation: fluid {"; "Coupled: t"; "}"]
  = ('(kids, cs1) <- parse_from (0 + 1) 0 [0; 1] ["Coupled: t"; "}"] ;;
     '(more, cs2) <- parse_from 0 1 (tl cs1) ["Coupled: t"; "}"] ;;
     Ok (parsed (__init__ "Add equation" "fluid" (0 + 1) false) kids
           (hd 0 cs1) :: more, cs2)).
Proof.
  exact (X4_block_of_one_word 0 0 0 [] "Add equation: fluid {"
           ["Coupled: t"; "}"] "Add equation" "fluid"
           (le_n 0) eq_refl eq_refl eq_refl eq_refl).
Defined.

(** X5.  The line [key: value {] with a space inside the value, not a
    comment and not read yet, raises [ValueError] (too many values to
    unpack), whatever the lines after it. *)
Theorem X5_block_value_with_space :
  forall (level idx c : nat) (parents : counters) (raw : string)
         (rest : list string) (k v : string),
    c <= idx ->
    strip raw = k ++ ": " ++ v ++ " {" ->
    partition ": " k = None ->
    contains " " v = true ->
    startswith "#" (strip raw) = false ->
    parse_from level idx (c :: parents) (raw :: rest)
    = Err (TooManyValues 2).
Proof. exact parse_from_block_spaces. Qed.

Lemma X5_block_value_with_space_witness :
  parse_from 1 2 [2; 5] ["  Output: Volume integral {"; "}"]
  = Err (TooManyValues 2).
Proof.
  exact (X5_block_value_with_space 1 2 2 [5] "  Output: Volume integral {"
           ["}"] "Output" "Volume integral"
           (le_n 2) eq_refl eq_refl eq_refl eq_refl).
Defined.

(** X6.  A root whose children begin with children without children,
    followed by a child with children: the lines are the opening tag of the
    root, an empty line, the opening tag of the general simulation
    parameters, the inline tags of the leading children, the closing tag of
    the general simulation parameters, the lines of the first child with
    children, the lines of the children after it, whatever they are, and the
    closing tag of the root. *)
Theorem X6_root_with_a_block :
  forall (root block : t) (leaves others : list t),
    is_root root = true ->
    children root = (leaves ++ block :: others)%list ->
    Forall (fun n => children n = []) leaves ->
    children block <> [] ->
    format_for_xml root
    = XmlList
        ((if level root =? 1 then [nl] else [])
         ++ [open_tag root; nl; gen_sim_params_open]
         ++ map inline_tag leaves
         ++ [gen_sim_params_close]
         ++ emit (format_for_xml block)
         ++ emit_children others
         ++ [close_tag root])%list.
Proof. exact format_for_xml_root_wrapper. Qed.

Lemma X6_root_with_a_block_witness :
  let tol := leaf "Tol" "1" 1 in
  let mesh := mk "Add_mesh" "msh" false 1 2 [leaf "Mesh_file_path" "m" 2] in
  let last := leaf "Debug" "0" 1 in
  let root := mk "svFSIFile" "0.1" true 0 5 [tol; mesh; last] in
  format_for_xml root
  = XmlList
      ((if level root =? 1 then [nl] else [])
       ++ [open_tag root; nl; gen_sim_params_open]
       ++ map inline_tag [tol]
       ++ [gen_sim_params_close]
       ++ emit (format_for_xml mesh)
       ++ emit_children [last]
       ++ [close_tag root])%list.
Proof.
  cbv zeta.
  apply (X6_root_with_a_block
           (mk "svFSIFile" "0.1" true 0 5
              [leaf "Tol" "1" 1;
               mk "Add_mesh" "msh" false 1 2 [leaf "Mesh_file_path" "m" 2];
               leaf "Debug" "0" 1])
           (mk "Add_mesh" "msh" false 1 2 [leaf "Mesh_file_path" "m" 2])
           [leaf "Tol" "1" 1] [leaf "Debug" "0" 1]);
    try reflexivity.
  - repeat constructor.
  - discriminate.
Defined.

End Blocks.

(** ** The counters and the output *)

Section Erase.
Import DataNode.

(** Induction on a tree, with the property at hand for every child. *)
Lemma tree_ind (P : t -> Prop) :
  (forall k v r l lp kids, Forall P kids -> P (mk k v r l lp kids)) ->
  forall n, P n.
Proof.
  intros H. fix IH 1. intros [k v r l lp kids]. apply H.
  induction kids as [| c kids IHkids]; constructor;
    [apply IH | exact IHkids].
Qed.

Lemma format_children_ext (f g : t -> xml) (e : t -> t) (r : bool)
      (kids : list t) :
  Forall (fun c => f (e c) = g c
                   /\ List.length (children (e c))
                      = List.length (children c)) kids ->
  forall adding acc,
    format_children f r adding (map e kids) acc
    = format_children g r adding kids acc.
Proof.
  induction 1 as [| c kids [Hc Hlen] _ IH]; intros adding acc;
    [reflexivity |].
  cbn [map format_children]. rewrite Hc, Hlen. apply IH.
Qed.

Lemma erase_children_length (n : t) :
  List.length (children (erase n)) = List.length (children n).
Proof. destruct n. cbn [erase children]. apply length_map. Qed.

(** [format_for_xml] does not look at the counters. *)
Lemma format_for_xml_erase (n : t) : format_for_xml (erase n) = format_for_xml n.
Proof.
  induction n as [k v r l lp kids IH] using tree_ind.
  destruct kids as [| c kids]; [reflexivity |].
  cbn [erase map format_for_xml children level is_root].
  do 2 f_equal.
  change (erase c :: map erase kids) with (map erase (c :: kids)).
  apply format_children_ext.
  eapply Forall_impl; [| exact IH].
  intros a Ha. split; [exact Ha | apply erase_children_length].
Qed.

Lemma format_for_xml_same_kids (k v : string) (r : bool) (l lp lp' : nat)
      (kids kids' : list t) :
  map erase kids = map erase kids' ->
  format_for_xml (mk k v r l lp kids) = format_for_xml (mk k v r l lp' kids').
Proof.
  intros H.
  rewrite <- (format_for_xml_erase (mk k v r l lp kids)).
  rewrite <- (format_for_xml_erase (mk k v r l lp' kids')).
  cbn [erase]. rewrite H. reflexivity.
Qed.

(** The output of the script, from the result of the loop of the root. *)
Lemma main_of_loop (inp xml : string) (file_lines : list string) :
  SolverInpConverter.main inp xml file_lines
  = match parse_from 0 0 [0] file_lines with
    | Ok (kids, cs) =>
        Ok (SolverInpConverter.xml_header
            :: SolverInpConverter.iterate
                 (format_for_xml (mk "svFSIFile" "0.1" true 0 (hd 0 cs) kids)))
    | Err e => Err e
    end.
Proof.
  unfold SolverInpConverter.main, SolverInpConverter.parse_inp_file, parse.
  cbn [__init__ level lines_parsed].
  destruct (parse_from 0 0 [0] file_lines) as [[kids cs] | e]; reflexivity.
Qed.

End Erase.

(** ** The end of a loop before the end of the lines *)

Section StopIsFinal.
Import DataNode.

Lemma extent_head (lines : list string) (level idx : nat)
      (parents : counters) kids cs :
  parse_from level idx (idx :: parents) lines = Ok (kids, cs) ->
  exists m, m <= List.length lines /\ hd 0 cs = idx + m
            /\ cs = idx + m :: advance (consumed (firstn m lines)) parents.
Proof.
  intros H.
  destruct (parse_from_extent _ lines (le_n _) _ _ _ _ _ H)
    as (m & Hm & Hcs & _).
  exists m. rewrite Hcs. repeat split. exact Hm.
Qed.

(** The loop of a node that ends before the end of its lines has ended at a
    line that closes a block, and what comes after that line has no part in
    the result. *)
Lemma parse_from_stop_final (n : nat) :
  forall (lines : list string), List.length lines <= n ->
  forall (level idx : nat) (parents : counters) kids cs (m : nat),
    parse_from level idx (idx :: parents) lines = Ok (kids, cs) ->
    hd 0 cs = idx + m ->
    m < List.length lines ->
    (exists m' close,
        m = S m' /\ nth_error lines m' = Some close
        /\ closes_block close = true)
    /\ forall ext,
        parse_from level idx (idx :: parents) (firstn m lines ++ ext)%list
        = Ok (kids, cs).
Proof.
  induction n as [| n IH];
    intros lines Hlen level idx parents kids cs m H Hhd Hlt.
  { destruct lines; cbn in Hlen, Hlt; lia. }
  destruct lines as [| raw rest]; [cbn in Hlt; lia |].
  cbn [List.length] in Hlen, Hlt.
  assert (Hsync : forall k ps, hd 0 (k :: ps) <= k) by (intros; cbn; lia).
  (* the loop goes on in step at the next line, after a node or none *)
  assert (Hcont : forall kids0,
    parse_from level (S idx) (S idx :: map S parents) rest = Ok (kids0, cs) ->
    (exists m' close,
        m = S m' /\ nth_error (raw :: rest) m' = Some close
        /\ closes_block close = true)
    /\ exists m0, m = S m0 /\ forall ext,
        parse_from level (S idx) (S idx :: map S parents)
          (firstn m0 rest ++ ext)%list = Ok (kids0, cs)).
  { intros kids0 H0.
    destruct (extent_head _ _ _ _ _ _ H0) as (m0 & Hm0 & Hhd0 & _).
    assert (m = S m0) by lia. subst m.
    destruct (IH rest ltac:(lia) _ _ _ _ _ m0 H0 Hhd0 ltac:(lia))
      as ((m' & close & -> & Hnth & Hclose) & Hall).
    split; [| exists (S m'); split; [reflexivity | exact Hall]].
    exists (S m'), close. repeat split; assumption. }
  destruct (is_skipped raw) eqn:Hs.
  - rewrite parse_from_skipped in H by assumption. cbn [incr_self] in H.
    destruct (extent_head _ _ _ _ _ _ H) as (m0 & Hm0 & Hhd0 & _).
    assert (m = S m0) by lia. subst m.
    destruct (IH rest ltac:(lia) _ _ _ _ _ m0 H Hhd0 ltac:(lia))
      as ((m' & close & -> & Hnth & Hclose) & Hall).
    split.
    + exists (S m'), close. repeat split; assumption.
    + intros ext. cbn [firstn app].
      rewrite parse_from_skipped by assumption. apply Hall.
  - destruct (contains "{" (strip raw)) eqn:Hb;
      [destruct (opens_block (strip raw)) eqn:Ho
      | destruct (contains "}" (strip raw)) eqn:Hc].
    + (* a block that goes on below the line *)
      rewrite parse_from_multiline in H by auto.
      bind_inv H as [k v] eqn:E1. bind_inv H as [v' b] eqn:E2.
      bind_inv H as [kids1 cs1] eqn:Hchild.
      bind_inv H as [more cs2] eqn:Hmore.
      injection H as <- <-.
      rewrite update_lines_parsed_map in Hchild. cbn [map] in Hchild.
      destruct (extent_head _ _ _ _ _ _ Hchild) as (m1 & Hm1 & Hhd1 & Hcs1).
      set (c1 := consumed (firstn m1 rest)) in *.
      set (ps := advance (S c1) parents).
      assert (Htl : tl cs1 = c1 + S idx :: ps).
      { rewrite Hcs1. cbn [tl]. unfold advance at 1. cbn [map].
        fold (advance c1 (map S parents)). now rewrite advance_S. }
      rewrite Htl in Hmore.
      assert (Hskip : forall body, m1 <= List.length body ->
                consumed (firstn m1 body) = c1 ->
                parse_from level (S idx) (c1 + S idx :: ps) body
                = parse_from level (S idx + m1) (S idx + m1 :: ps)
                    (skipn m1 body)).
      { intros body Hbody Hc1.
        pose proof (parse_from_catch_up m1 body level (S idx) 0 ps Hbody)
          as E.
        rewrite Hc1 in E.
        replace (S idx + c1 + 0) with (c1 + S idx) in E by lia.
        now rewrite Nat.add_0_r in E. }
      rewrite (Hskip rest Hm1 eq_refl) in Hmore.
      destruct (extent_head _ _ _ _ _ _ Hmore) as (m2 & Hm2 & Hhd2 & _).
      rewrite length_skipn in Hm2.
      assert (m = S (m1 + m2)) by lia. subst m.
      destruct (IH rest ltac:(lia) _ _ _ _ _ m1 Hchild Hhd1 ltac:(lia))
        as (_ & Hall1).
      destruct (IH (skipn m1 rest) ltac:(rewrite length_skipn; lia)
                  _ _ _ _ _ m2 Hmore Hhd2
                  ltac:(rewrite length_skipn; lia))
        as ((m' & close & -> & Hnth & Hclose) & Hall2).
      split.
      * exists (m1 + S m'), close. split; [lia |]. split; [| assumption].
        replace (m1 + S m') with (S (m1 + m')) by lia. cbn [nth_error].
        rewrite nth_error_skipn in Hnth. exact Hnth.
      * intros ext. cbn [firstn app].
        rewrite firstn_plus, <- app_assoc.
        rewrite parse_from_multiline by auto.
        rewrite E1. cbn [bind]. rewrite E2. cbn [bind].
        rewrite update_lines_parsed_map. cbn [map].
        rewrite Hall1. cbn [bind]. rewrite Htl.
        assert (Hlen1 : List.length (firstn m1 rest) = m1)
          by (rewrite length_firstn; lia).
        rewrite Hskip.
        -- rewrite skipn_app, Hlen1, Nat.sub_diag, skipn_firstn_comm.
           rewrite Nat.sub_diag. cbn [firstn skipn app].
           rewrite Hall2. reflexivity.
        -- rewrite length_app. lia.
        -- rewrite firstn_app, Hlen1, Nat.sub_diag, firstn_firstn.
           rewrite Nat.min_id. cbn [firstn]. rewrite app_nil_r.
           reflexivity.
    + (* a block on one line *)
      rewrite parse_from_inline in H by auto.
      bind_inv H as [nd sub] eqn:E1. bind_inv H as [nk nv] eqn:E2.
      bind_inv H as [sk sv] eqn:E3. bind_inv H as [more cs2] eqn:Hmore.
      injection H as <- <-.
      rewrite update_lines_parsed_map in Hmore. cbn [map] in Hmore.
      destruct (Hcont _ Hmore)
        as (Hnth & m0 & -> & Hall).
      split; [exact Hnth |]. intros ext. cbn [firstn app].
      rewrite parse_from_inline by auto.
      rewrite E1. cbn [bind]. rewrite E2. cbn [bind].
      rewrite E3. cbn [bind].
      rewrite update_lines_parsed_map. cbn [map]. rewrite Hall.
      reflexivity.
    + (* the end of a block *)
      rewrite parse_from_close in H by auto. injection H as <- <-.
      rewrite update_lines_parsed_map in Hhd. cbn [map hd] in Hhd.
      assert (m = 1) by lia. subst m.
      split.
      * exists 0, raw. repeat split. unfold closes_block.
        rewrite Hs, Hb, Hc. reflexivity.
      * intros ext. cbn [firstn app].
        rewrite parse_from_close by auto. reflexivity.
    + (* a line without nesting *)
      rewrite parse_from_leaf in H by auto.
      bind_inv H as [k v] eqn:E1. bind_inv H as [more cs2] eqn:Hmore.
      injection H as <- <-.
      rewrite update_lines_parsed_map in Hmore. cbn [map] in Hmore.
      destruct (Hcont _ Hmore)
        as (Hnth & m0 & -> & Hall).
      split; [exact Hnth |]. intros ext. cbn [firstn app].
      rewrite parse_from_leaf by auto.
      rewrite E1. cbn [bind].
      rewrite update_lines_parsed_map. cbn [map]. rewrite Hall.
      reflexivity.
Qed.

(** X9.  When [parse_inp_file] returns and the counter of the root is
    below the number of lines of the file, the line of that number is a line
    with a closing brace and without an opening brace, at which the loop of
    the root has ended; the lines after it are not read: they can be taken
    away or replaced by any lines, and the output of the script is the
    same. *)
Theorem X9_lines_after_the_end_of_the_root :
  forall (self self' : SolverInpConverter.t) (file_lines : list string)
         (root : t),
    SolverInpConverter.parse_inp_file self file_lines = Ok self' ->
    SolverInpConverter.data_root self' = Some root ->
    lines_parsed root < List.length file_lines ->
    (exists i close,
        lines_parsed root = S i /\ nth_error file_lines i = Some close
        /\ closes_block close = true)
    /\ forall (inp xml : string) (ext : list string),
        SolverInpConverter.main inp xml
          (firstn (lines_parsed root) file_lines ++ ext)%list
        = SolverInpConverter.main inp xml file_lines.
Proof.
  intros self self' file_lines root H Hroot Hlt.
  unfold SolverInpConverter.parse_inp_file, parse in H.
  bind_inv H as [root0 cs0] eqn:Hparse.
  bind_inv Hparse as [kids cs] eqn:Hloop.
  injection Hparse as <- _. injection H as <-.
  cbn [SolverInpConverter.data_root] in Hroot. injection Hroot as <-.
  cbn [__init__ level lines_parsed parsed] in Hloop, Hlt |- *.
  destruct (extent_head _ _ _ _ _ _ Hloop) as (m & Hm & Hhd & _).
  cbn [Nat.add] in Hhd. rewrite Hhd in Hlt |- *.
  destruct (parse_from_stop_final _ file_lines (le_n _) _ _ _ _ _ m Hloop Hhd
              Hlt) as ((i & close & -> & Hnth & Hclose) & Hall).
  split; [exists i, close; repeat split; assumption |].
  intros inp xml ext. rewrite !main_of_loop, Hall, Hloop. reflexivity.
Qed.

Lemma X9_lines_after_the_end_of_the_root_witness :
  let file_lines := ["Tol: 1"; "}"; "Debug: t"; "not a line"] in
  let root := mk "svFSIFile" "0.1" true 0 2 [leaf "Tol" "1" 1] in
  (exists i close,
      lines_parsed root = S i /\ nth_error file_lines i = Some close
      /\ closes_block close = true)
  /\ forall (inp xml : string) (ext : list string),
      SolverInpConverter.main inp xml
        (firstn (lines_parsed root) file_lines ++ ext)%list
      = SolverInpConverter.main inp xml file_lines.
Proof.
  cbv zeta.
  apply (X9_lines_after_the_end_of_the_root
           (SolverInpConverter.__init__ "svFSI.inp" "svFSI.xml")
           (SolverInpConverter.mk "svFSI.inp" "svFSI.xml"
              (Some (mk "svFSIFile" "0.1" true 0 2 [leaf "Tol" "1" 1]))
              ["Tol: 1"; "}"; "Debug: t"; "not a line"]));
    [reflexivity | reflexivity | cbn; lia].
Defined.

End StopIsFinal.

(** ** Empty lines and comments *)

Section Comments.
Import DataNode.

Lemma clean_cons (raw : string) (lines : list string) :
  clean (raw :: lines)
  = if is_skipped raw then clean lines else raw :: clean lines.
Proof. unfold clean. cbn [filter]. destruct (is_skipped raw); reflexivity. Qed.

Lemma consumed_clean (lines : list string) :
  consumed lines = List.length (clean lines).
Proof. reflexivity. Qed.

Lemma clean_clean (lines : list string) : clean (clean lines) = clean lines.
Proof.
  induction lines as [| raw lines IH]; [reflexivity |].
  rewrite clean_cons. destruct (is_skipped raw) eqn:Hs; [exact IH |].
  rewrite clean_cons, Hs, IH. reflexivity.
Qed.

Lemma consumed_of_clean (lines : list string) :
  consumed (clean lines) = consumed lines.
Proof. rewrite !consumed_clean, clean_clean. reflexivity. Qed.

(** The lines that count among the first [m] lines are the first lines
    that count. *)
Lemma clean_firstn (m : nat) :
  forall lines,
    clean (firstn m lines) = firstn (consumed (firstn m lines)) (clean lines).
Proof.
  induction m as [| m IH]; intros [| raw lines]; try reflexivity.
  cbn [firstn]. rewrite consumed_cons, !clean_cons.
  destruct (is_skipped raw); cbn [Nat.add firstn]; rewrite IH; reflexivity.
Qed.

Lemma clean_skipn (m : nat) :
  forall lines,
    clean (skipn m lines) = skipn (consumed (firstn m lines)) (clean lines).
Proof.
  induction m as [| m IH]; intros [| raw lines]; try reflexivity.
  cbn [firstn skipn]. rewrite consumed_cons, clean_cons.
  destruct (is_skipped raw); cbn [Nat.add skipn]; rewrite IH; reflexivity.
Qed.

Lemma consumed_firstn_le (m : nat) (lines : list string) :
  consumed (firstn m lines) <= List.length (clean lines).
Proof.
  rewrite consumed_clean, clean_firstn, length_firstn. lia.
Qed.

Lemma erase_parsed (n : t) (kids kids' : list t) (lp lp' : nat) :
  children n = [] ->
  map erase kids' = map erase kids ->
  erase (parsed n kids' lp') = erase (parsed n kids lp).
Proof.
  intros Hn H. unfold parsed. rewrite Hn. cbn [erase app].
  rewrite H. reflexivity.
Qed.

Lemma parse_from_clean_nil (level idx idx' : nat)
      (parents parents' : counters) :
  (forall e,
      parse_from level idx (idx :: parents) [] = Err e ->
      parse_from level idx' (idx' :: parents') (clean []) = Err e)
  /\ (forall kids cs,
        parse_from level idx (idx :: parents) [] = Ok (kids, cs) ->
        exists m kids',
          m <= List.length (@nil string)
          /\ hd 0 cs = idx + m
          /\ parse_from level idx' (idx' :: parents') (clean [])
             = Ok (kids',
                   idx' + consumed (firstn m [])
                   :: advance (consumed (firstn m [])) parents')
          /\ map erase kids' = map erase kids).
Proof.
  split; [discriminate |].
  intros kids cs H. cbn in H. injection H as <- <-.
  exists 0, []. split; [cbn; lia |]. split; [cbn; lia |].
  split; [| reflexivity].
  cbn [firstn clean filter parse_from]. change (consumed []) with 0.
  rewrite Nat.add_0_r, advance_0. reflexivity.
Qed.

(** The loop of a node on the lines that count alone: the same exception,
    or the same nodes up to their counters, and the counters higher by the
    number of lines that count among the lines gone through. *)
Lemma parse_from_clean (n : nat) :
  forall (lines : list string), List.length lines <= n ->
  forall (level idx idx' : nat) (parents parents' : counters),
    (forall e,
        parse_from level idx (idx :: parents) lines = Err e ->
        parse_from level idx' (idx' :: parents') (clean lines) = Err e)
    /\ (forall kids cs,
          parse_from level idx (idx :: parents) lines = Ok (kids, cs) ->
          exists m kids',
            m <= List.length lines
            /\ hd 0 cs = idx + m
            /\ parse_from level idx' (idx' :: parents') (clean lines)
               = Ok (kids',
                     idx' + consumed (firstn m lines)
                     :: advance (consumed (firstn m lines)) parents')
            /\ map erase kids' = map erase kids).
Proof.
  induction n as [| n IH];
    intros lines Hlen level idx idx' parents parents'.
  { destruct lines; [apply parse_from_clean_nil | cbn in Hlen; lia]. }
  destruct lines as [| raw rest]; [apply parse_from_clean_nil |].
  cbn [List.length] in Hlen.
  assert (Hsync : forall k ps, hd 0 (k :: ps) <= k) by (intros; cbn; lia).
  rewrite clean_cons.
  destruct (is_skipped raw) eqn:Hs.
  { rewrite parse_from_skipped by assumption. cbn [incr_self].
    destruct (IH rest ltac:(lia) level (S idx) idx' parents parents')
      as [IHe IHo].
    split; [exact IHe |].
    intros kids cs H.
    destruct (IHo _ _ H) as (m & kids' & Hm & Hhd & Hc & He).
    exists (S m), kids'. cbn [List.length firstn].
    rewrite consumed_cons, Hs. cbn [Nat.add].
    repeat split; [lia | lia | exact Hc | exact He]. }
  (* the loop goes on in step at the next line, in both runs *)
  destruct (IH rest ltac:(lia) level (S idx) (S idx') (map S parents)
              (map S parents')) as [IHe IHo].
  assert (Hnext : forall kids cs,
    parse_from level (S idx) (S idx :: map S parents) rest = Ok (kids, cs) ->
    exists m kids',
      m <= List.length (raw :: rest)
      /\ hd 0 cs = idx + m
      /\ parse_from level (S idx') (S idx' :: map S parents') (clean rest)
         = Ok (kids',
               idx' + consumed (firstn m (raw :: rest))
               :: advance (consumed (firstn m (raw :: rest))) parents')
      /\ map erase kids' = map erase kids).
  { intros kids cs H.
    destruct (IHo _ _ H) as (m & kids' & Hm & Hhd & Hc & He).
    exists (S m), kids'. cbn [List.length firstn].
    rewrite consumed_cons, Hs, Hc, advance_S.
    repeat split; [lia | lia | | exact He].
    do 2 f_equal. f_equal. lia. }
  destruct (contains "{" (strip raw)) eqn:Hb;
    [destruct (opens_block (strip raw)) eqn:Ho
    | destruct (contains "}" (strip raw)) eqn:Hc].
  - (* a block that goes on below the line *)
    rewrite !parse_from_multiline by auto.
    rewrite (update_lines_parsed_map (idx :: parents)),
      (update_lines_parsed_map (idx' :: parents')). cbn [map].
    destruct (unpack2 (split1 ": " (strip raw))) as [[k v] | e0];
      [| split; [intros e H; exact H | discriminate]].
    cbn [bind].
    destruct (unpack2 (rsplit " " v)) as [[v' b] | e0];
      [| split; [intros e H; exact H | discriminate]].
    cbn [bind].
    destruct (IH rest ltac:(lia) (level + 1) 0 0 (S idx :: map S parents)
                (S idx' :: map S parents')) as [IHe1 IHo1].
    destruct (parse_from (level + 1) 0 (0 :: S idx :: map S parents) rest)
      as [[kids1 cs1] | e1] eqn:Hchild.
    2:{ rewrite (IHe1 e1 eq_refl). split; [intros e H; exact H | discriminate]. }
    destruct (IHo1 _ _ eq_refl) as (m1 & kids1' & Hm1 & Hhd1 & Hc1 & He1).
    rewrite Hc1. cbn [bind].
    destruct (extent_head _ _ _ _ _ _ Hchild) as (m1' & _ & Hhd1' & Hcs1).
    assert (m1' = m1) by lia. subst m1'.
    set (c1 := consumed (firstn m1 rest)) in *.
    assert (Htl : forall h i ps,
              tl (h :: advance c1 (S i :: map S ps))
              = c1 + S i :: advance (S c1) ps).
    { intros h i ps. cbn [tl]. unfold advance at 1. cbn [map].
      fold (advance c1 (map S ps)). now rewrite advance_S. }
    rewrite Hcs1. cbn [Nat.add hd].
    rewrite (Htl _ idx parents), (Htl _ idx' parents').
    (* both loops pass over the lines of the child *)
    pose proof (parse_from_catch_up m1 rest level (S idx) 0
                  (advance (S c1) parents) Hm1) as E.
    fold c1 in E.
    replace (S idx + c1 + 0) with (c1 + S idx) in E by lia.
    rewrite Nat.add_0_r in E. rewrite E. clear E.
    pose proof (parse_from_catch_up (consumed (firstn m1 rest)) (clean rest)
                  level (S idx') 0 (advance (S c1) parents')
                  (consumed_firstn_le m1 rest)) as E.
    rewrite <- clean_firstn, consumed_of_clean, <- clean_skipn in E.
    fold c1 in E. rewrite !Nat.add_0_r in E.
    rewrite (Nat.add_comm c1 (S idx')), E. clear E.
    destruct (IH (skipn m1 rest) ltac:(rewrite length_skipn; lia) level
                (S idx + m1) (S idx' + c1) (advance (S c1) parents)
                (advance (S c1) parents')) as [IHe2 IHo2].
    split.
    + intros e H.
      destruct (parse_from level (S idx + m1)
                  (S idx + m1 :: advance (S c1) parents) (skipn m1 rest))
        as [[more cs2] | e2]; [discriminate |].
      injection H as <-. rewrite (IHe2 e2 eq_refl). reflexivity.
    + intros kids cs H.
      bind_inv H as [more cs2] eqn:Hmore. injection H as <- <-.
      destruct (IHo2 _ _ Hmore) as (m2 & more' & Hm2 & Hhd2 & Hc2 & He2).
      rewrite length_skipn in Hm2.
      exists (S (m1 + m2)), (parsed (__init__ k v' (level + 1) false) kids1' c1
                            :: more').
      cbn [List.length firstn].
      rewrite consumed_cons, Hs, firstn_plus, consumed_app. fold c1.
      rewrite Hc2. cbn [bind]. rewrite advance_advance.
      repeat split; [lia | lia | |].
      * do 2 f_equal. apply (f_equal2 cons); [lia |].
        apply (f_equal2 advance); [lia | reflexivity].
      * cbn [map]. rewrite He2. f_equal.
        apply erase_parsed; [reflexivity | exact He1].
  - (* a block on one line *)
    rewrite !parse_from_inline by auto.
    rewrite (update_lines_parsed_map (idx :: parents)),
      (update_lines_parsed_map (idx' :: parents')). cbn [map].
    destruct (unpack2 (split " {" (strip raw))) as [[nd sub] | e0];
      [| split; [intros e H; exact H | discriminate]].
    cbn [bind].
    destruct (unpack2 (split1 ": " nd)) as [[nk nv] | e0];
      [| split; [intros e H; exact H | discriminate]].
    cbn [bind].
    destruct (unpack2 (split1 ": " sub)) as [[sk sv] | e0];
      [| split; [intros e H; exact H | discriminate]].
    cbn [bind].
    split.
    + intros e H.
      destruct (parse_from level (S idx) (S idx :: map S parents) rest)
        as [[more cs2] | e2]; [discriminate |].
      injection H as <-. rewrite (IHe e2 eq_refl). reflexivity.
    + intros kids cs H.
      bind_inv H as [more cs2] eqn:Hmore. injection H as <- <-.
      destruct (Hnext _ _ Hmore) as (m & more' & Hm & Hhd & Hc' & He).
      exists m. eexists. rewrite Hc'. cbn [bind].
      repeat split; [exact Hm | exact Hhd |].
      cbn [map]. rewrite He. reflexivity.
  - (* the end of a block *)
    rewrite !parse_from_close by auto.
    rewrite (update_lines_parsed_map (idx :: parents)),
      (update_lines_parsed_map (idx' :: parents')). cbn [map].
    split; [discriminate |].
    intros kids cs H. injection H as <- <-.
    exists 1, []. cbn [List.length firstn hd].
    rewrite consumed_cons, Hs.
    cbn [consumed filter List.length Nat.add].
    repeat split; [lia | lia |].
    do 2 f_equal. apply (f_equal2 cons); [lia | reflexivity].
  - (* a line without nesting *)
    rewrite !parse_from_leaf by auto.
    rewrite (update_lines_parsed_map (idx :: parents)),
      (update_lines_parsed_map (idx' :: parents')). cbn [map].
    destruct (unpack2 (split1 ": " (strip raw))) as [[k v] | e0];
      [| split; [intros e H; exact H | discriminate]].
    cbn [bind].
    split.
    + intros e H.
      destruct (parse_from level (S idx) (S idx :: map S parents) rest)
        as [[more cs2] | e2]; [discriminate |].
      injection H as <-. rewrite (IHe e2 eq_refl). reflexivity.
    + intros kids cs H.
      bind_inv H as [more cs2] eqn:Hmore. injection H as <- <-.
      destruct (Hnext _ _ Hmore) as (m & more' & Hm & Hhd & Hc' & He).
      exists m. eexists. rewrite Hc'. cbn [bind].
      repeat split; [exact Hm | exact Hhd |].
      cbn [map]. rewrite He. reflexivity.
Qed.

(** X10.  Empty lines and comments have no part in the output: the script
    writes the same strings, or raises the same exception, for a file and
    for the file without its empty lines and its comments, wherever they
    are. *)
Theorem X10_comments_and_empty_lines_ignored :
  forall (inp xml : string) (file_lines : list string),
    SolverInpConverter.main inp xml (clean file_lines)
    = SolverInpConverter.main inp xml file_lines.
Proof.
  intros inp xml file_lines. rewrite !main_of_loop.
  destruct (parse_from_clean _ file_lines (le_n _) 0 0 0 [] []) as [He Ho].
  destruct (parse_from 0 0 [0] file_lines) as [[kids cs] | e].
  - destruct (Ho _ _ eq_refl) as (m & kids' & _ & _ & Hc & Hk).
    rewrite Hc. do 3 f_equal. apply format_for_xml_same_kids, Hk.
  - rewrite (He e eq_refl). reflexivity.
Qed.

End Comments.

(** ** A closing brace at the end of the file *)

Section TrailingBrace.
Import DataNode.

Lemma parse_from_nil_close (level idx : nat) (parents : counters)
      (close : string) :
  closes_block close = true ->
  parse_from level idx (idx :: parents) [close]
  = Ok ([], S idx :: map S parents).
Proof.
  intros H. apply closes_block_inv in H as (Hs & Hc & Ho).
  rewrite parse_from_close by (assumption || (cbn; lia)).
  rewrite update_lines_parsed_map. reflexivity.
Qed.

(** The loop of a node on its lines followed by a line that closes a
    block: the same exception, or the same nodes up to their counters. *)
Lemma parse_from_trailing_close (n : nat) :
  forall (pre : list string), List.length pre <= n ->
  forall (level idx : nat) (parents : counters) (close : string),
    closes_block close = true ->
    (forall e,
        parse_from level idx (idx :: parents) pre = Err e ->
        parse_from level idx (idx :: parents) (pre ++ [close])%list = Err e)
    /\ (forall kids cs,
          parse_from level idx (idx :: parents) pre = Ok (kids, cs) ->
          exists kids' cs',
            parse_from level idx (idx :: parents) (pre ++ [close])%list
            = Ok (kids', cs')
            /\ map erase kids' = map erase kids).
Proof.
  induction n as [| n IH]; intros pre Hlen level idx parents close Hclose.
  { destruct pre; [| cbn in Hlen; lia]. split; [discriminate |].
    intros kids cs H. cbn in H. injection H as <- <-.
    cbn [app]. rewrite parse_from_nil_close by assumption. eauto. }
  destruct pre as [| raw rest].
  { split; [discriminate |].
    intros kids cs H. cbn in H. injection H as <- <-.
    cbn [app]. rewrite parse_from_nil_close by assumption. eauto. }
  cbn [List.length] in Hlen. cbn [app].
  assert (Hsync : forall k ps, hd 0 (k :: ps) <= k) by (intros; cbn; lia).
  destruct (is_skipped raw) eqn:Hs.
  { rewrite !parse_from_skipped by assumption. cbn [incr_self].
    apply IH; [lia | assumption]. }
  destruct (IH rest ltac:(lia) level (S idx) (map S parents) close Hclose)
    as [IHe IHo].
  destruct (contains "{" (strip raw)) eqn:Hb;
    [destruct (opens_block (strip raw)) eqn:Ho
    | destruct (contains "}" (strip raw)) eqn:Hc].
  - (* a block that goes on below the line *)
    rewrite !parse_from_multiline by auto.
    rewrite update_lines_parsed_map. cbn [map].
    destruct (unpack2 (split1 ": " (strip raw))) as [[k v] | e0];
      [| split; [intros e H; exact H | discriminate]].
    cbn [bind].
    destruct (unpack2 (rsplit " " v)) as [[v' b] | e0];
      [| split; [intros e H; exact H | discriminate]].
    cbn [bind].
    destruct (IH rest ltac:(lia) (level + 1) 0 (S idx :: map S parents)
                close Hclose) as [IHe1 IHo1].
    destruct (parse_from (level + 1) 0 (0 :: S idx :: map S parents) rest)
      as [[kids1 cs1] | e1] eqn:Hchild.
    2:{ rewrite (IHe1 e1 eq_refl).
        split; [intros e H; exact H | discriminate]. }
    destruct (IHo1 _ _ eq_refl) as (kids1' & cs1' & Hchild' & He1).
    rewrite Hchild'. cbn [bind].
    destruct (extent_head _ _ _ _ _ _ Hchild) as (m1 & Hm1 & Hhd1 & Hcs1).
    destruct (extent_head _ _ _ _ _ _ Hchild')
      as (m1' & Hm1' & Hhd1' & Hcs1').
    rewrite length_app in Hm1'. cbn [List.length] in Hm1'.
    cbn [Nat.add] in Hhd1, Hhd1', Hcs1, Hcs1'.
    assert (Htl : forall h c i ps,
              tl (h :: advance c (S i :: map S ps))
              = c + S i :: advance (S c) ps).
    { intros h c i ps. cbn [tl]. unfold advance at 1. cbn [map].
      fold (advance c (map S ps)). now rewrite advance_S. }
    assert (Hskip : forall m body ps, m <= List.length body ->
              parse_from level (S idx)
                (consumed (firstn m body) + S idx :: ps) body
              = parse_from level (S idx + m) (S idx + m :: ps)
                  (skipn m body)).
    { intros m body ps Hbody.
      pose proof (parse_from_catch_up m body level (S idx) 0 ps Hbody) as E.
      rewrite !Nat.add_0_r in E.
      rewrite (Nat.add_comm (consumed (firstn m body)) (S idx)). exact E. }
    destruct (Nat.lt_ge_cases m1 (List.length rest)) as [Hlt | Hge].
    + (* the child has ended before the end: nothing changes for it *)
      destruct (parse_from_stop_final _ rest (le_n _) _ _ _ _ _ m1 Hchild
                  Hhd1 Hlt) as (_ & Hall).
      specialize (Hall (skipn m1 rest ++ [close])%list).
      rewrite app_assoc, firstn_skipn in Hall.
      rewrite Hall in Hchild'. injection Hchild' as <- <-.
      rewrite Hcs1. cbn [hd]. rewrite Htl.
      rewrite (Hskip m1 rest) by lia.
      pose proof (Hskip m1 (rest ++ [close])%list (advance
                    (S (consumed (firstn m1 rest))) parents)) as E.
      rewrite firstn_app, skipn_app in E.
      replace (m1 - List.length rest) with 0 in E by lia.
      cbn [firstn skipn] in E. rewrite app_nil_r in E.
      rewrite E by (rewrite length_app; lia). clear E.
      destruct (IH (skipn m1 rest) ltac:(rewrite length_skipn; lia) level
                  (S idx + m1)
                  (advance (S (consumed (firstn m1 rest))) parents)
                  close Hclose) as [IHe2 IHo2].
      split.
      * intros e H.
        destruct (parse_from level (S idx + m1)
                    (S idx + m1
                     :: advance (S (consumed (firstn m1 rest))) parents)
                    (skipn m1 rest))
          as [[more cs2] | e2]; [discriminate |].
        injection H as <-. rewrite (IHe2 e2 eq_refl). reflexivity.
      * intros kids cs H.
        bind_inv H as [more cs2] eqn:Hmore. injection H as <- <-.
        destruct (IHo2 _ _ Hmore) as (more' & cs2' & Hmore' & He2).
        rewrite Hmore'. cbn [bind]. do 2 eexists. split; [reflexivity |].
        cbn [map]. rewrite He2. reflexivity.
    + (* the child has gone to the end of the lines *)
      assert (Hend1 : m1 = List.length rest) by lia.
      clear Hhd1. subst m1.
      assert (Hm1'' : List.length rest <= m1').
      { destruct (Nat.lt_ge_cases m1' (List.length rest)) as [Hlt' | ?];
          [| assumption].
        destruct (parse_from_stop_final _ (rest ++ [close])%list (le_n _)
                    _ _ _ _ _ m1' Hchild' Hhd1'
                    ltac:(rewrite length_app; cbn; lia)) as (_ & Hall).
        specialize (Hall (skipn m1' rest)).
        rewrite firstn_app in Hall.
        replace (m1' - List.length rest) with 0 in Hall by lia.
        cbn [firstn] in Hall. rewrite app_nil_r, firstn_skipn in Hall.
        rewrite Hchild in Hall. injection Hall as _ Hcs.
        rewrite Hcs1, Hcs1' in Hcs. injection Hcs as Hcs _. lia. }
      rewrite Hcs1, Hcs1'. cbn [hd]. rewrite !Htl.
      rewrite (Hskip (List.length rest) rest) by lia.
      rewrite (Hskip m1' (rest ++ [close])%list)
        by (rewrite length_app; cbn; lia).
      rewrite skipn_all. cbn [parse_from bind].
      split; [discriminate |].
      intros kids cs H. injection H as <- <-.
      assert (Hend : exists cs2,
                parse_from level (S idx + m1')
                  (S idx + m1'
                   :: advance
                        (S (consumed (firstn m1' (rest ++ [close])%list)))
                        parents)
                  (skipn m1' (rest ++ [close])%list) = Ok ([], cs2)).
      { rewrite skipn_app.
        destruct (Nat.eq_dec m1' (List.length rest)) as [-> | Hne].
        - rewrite skipn_all, Nat.sub_diag. cbn [skipn app].
          rewrite parse_from_nil_close by assumption. eauto.
        - rewrite skipn_all2 by lia.
          replace (m1' - List.length rest) with 1 by lia.
          cbn [skipn app parse_from]. eauto. }
      destruct Hend as (cs2 & Hend). rewrite Hend. cbn [bind].
      do 2 eexists. split; [reflexivity |].
      cbn [map]. f_equal. apply erase_parsed; [reflexivity | exact He1].
  - (* a block on one line *)
    rewrite !parse_from_inline by auto.
    rewrite update_lines_parsed_map. cbn [map].
    destruct (unpack2 (split " {" (strip raw))) as [[nd sub] | e0];
      [| split; [intros e H; exact H | discriminate]].
    cbn [bind].
    destruct (unpack2 (split1 ": " nd)) as [[nk nv] | e0];
      [| split; [intros e H; exact H | discriminate]].
    cbn [bind].
    destruct (unpack2 (split1 ": " sub)) as [[sk sv] | e0];
      [| split; [intros e H; exact H | discriminate]].
    cbn [bind].
    split.
    + intros e H.
      destruct (parse_from level (S idx) (S idx :: map S parents) rest)
        as [[more cs2] | e2]; [discriminate |].
      injection H as <-. rewrite (IHe e2 eq_refl). reflexivity.
    + intros kids cs H.
      bind_inv H as [more cs2] eqn:Hmore. injection H as <- <-.
      destruct (IHo _ _ Hmore) as (more' & cs2' & Hmore' & He2).
      rewrite Hmore'. cbn [bind]. do 2 eexists. split; [reflexivity |].
      cbn [map]. rewrite He2. reflexivity.
  - (* the end of a block *)
    rewrite !parse_from_close by auto.
    split; [discriminate |].
    intros kids cs H. injection H as <- <-. eauto.
  - (* a line without nesting *)
    rewrite !parse_from_leaf by auto.
    rewrite update_lines_parsed_map. cbn [map].
    destruct (unpack2 (split1 ": " (strip raw))) as [[k v] | e0];
      [| split; [intros e H; exact H | discriminate]].
    cbn [bind].
    split.
    + intros e H.
      destruct (parse_from level (S idx) (S idx :: map S parents) rest)
        as [[more cs2] | e2]; [discriminate |].
      injection H as <-. rewrite (IHe e2 eq_refl). reflexivity.
    + intros kids cs H.
      bind_inv H as [more cs2] eqn:Hmore. injection H as <- <-.
      destruct (IHo _ _ Hmore) as (more' & cs2' & Hmore' & He2).
      rewrite Hmore'. cbn [bind]. do 2 eexists. split; [reflexivity |].
      cbn [map]. rewrite He2. reflexivity.
Qed.

Lemma main_trailing_close (inp xml : string) (file_lines : list string)
      (close : string) :
  closes_block close = true ->
  SolverInpConverter.main inp xml (file_lines ++ [close])%list
  = SolverInpConverter.main inp xml file_lines.
Proof.
  intros Hclose. rewrite !main_of_loop.
  destruct (parse_from_trailing_close _ file_lines (le_n _) 0 0 [] close
              Hclose) as [He Ho].
  destruct (parse_from 0 0 [0] file_lines) as [[kids cs] | e].
  - destruct (Ho _ _ eq_refl) as (kids' & cs' & Hc & Hk).
    rewrite Hc. do 3 f_equal. apply format_for_xml_same_kids, Hk.
  - rewrite (He e eq_refl). reflexivity.
Qed.

(** X11.  Lines that close a block, added at the end of a file, change
    nothing in the output, whether a block is open there or not: a block
    that is not closed when the file ends is taken as closed, without any
    exception, and closing braces in excess at the end are passed over. *)
Theorem X11_closing_braces_at_the_end :
  forall (inp xml : string) (file_lines closes : list string),
    Forall (fun l => closes_block l = true) closes ->
    SolverInpConverter.main inp xml (file_lines ++ closes)%list
    = SolverInpConverter.main inp xml file_lines.
Proof.
  intros inp xml file_lines closes.
  induction closes as [| close closes IH] using rev_ind; intros H.
  - now rewrite app_nil_r.
  - apply Forall_app in H as [Hcloses Hclose].
    inversion Hclose as [| ? ? Hc _]; subst.
    rewrite app_assoc, (main_trailing_close _ _ _ _ Hc). apply IH, Hcloses.
Qed.

Lemma X11_closing_braces_at_the_end_witness :
  SolverInpConverter.main "svFSI.inp" "svFSI.xml"
    (["Add mesh: msh {"; "Add face: wall {"; "Face file path: w.vtp"]
     ++ ["  }"; "}"; "}"])%list
  = SolverInpConverter.main "svFSI.inp" "svFSI.xml"
      ["Add mesh: msh {"; "Add face: wall {"; "Face file path: w.vtp"].
Proof.
  apply (X11_closing_braces_at_the_end "svFSI.inp" "svFSI.xml"
           ["Add mesh: msh {"; "Add face: wall {"; "Face file path: w.vtp"]
           ["  }"; "}"; "}"]).
  repeat constructor.
Defined.

End TrailingBrace.

(** ** The exceptions of the conversion *)

Section Exceptions.
Import DataNode.







Lemma partition_colon_end (k : string) :
  partition ": " k = None -> partition ": " (k ++ ":") = None.
Proof.
  induction k as [| c k IH]; intros H; [reflexivity |].
  cbn [partition] in H.
  destruct (prefix ": " (String c k)) eqn:Hp; [discriminate |].
  destruct (partition ": " k) as [[a b] |] eqn:Hk; [discriminate |].
  cbn [append partition].
  destruct (prefix ": " (String c (k ++ ":"))) eqn:Hp'.
  - apply prefix_colon_space in Hp' as [-> Hsp].
    destruct k as [| d k]; [discriminate |].
    cbn [prefix append] in Hsp, Hp. rewrite prefix_empty in Hsp, Hp.
    destruct (ascii_dec ":" ":") as [_ | N]; [| contradiction].
    destruct (ascii_dec " " d) as [_ | _]; discriminate.
  - rewrite (IH eq_refl). reflexivity.
Qed.

(** X13.  A line [key:] without a value after the colon, or with spaces
    only after it, which [strip] takes away: the line has no colon
    followed by a space, and reading it raises [ValueError] (not enough
    values to unpack).  A key cannot have an empty value. *)
Theorem X13_empty_value_raises :
  forall (level idx c : nat) (parents : counters) (raw : string)
         (rest : list string) (k : string),
    c <= idx ->
    strip raw = k ++ ":" ->
    partition ": " k = None ->
    startswith "#" (strip raw) = false ->
    contains "{" k = false ->
    contains "}" k = false ->
    parse_from level idx (c :: parents) (raw :: rest)
    = Err (NotEnoughValues 2 1).
Proof.
  intros level idx c parents raw rest k Hc Hline Hk Hhash Hopen Hclose.
  assert (Hs : is_skipped raw = false).
  { unfold is_skipped. rewrite Hhash, Hline. destruct k; reflexivity. }
  rewrite parse_from_leaf;
    try assumption;
    try (rewrite Hline, contains_append; cbn [contains];
         rewrite ?Hopen, ?Hclose; reflexivity).
  unfold split1. rewrite Hline, (partition_colon_end k Hk). reflexivity.
Qed.

Lemma X13_empty_value_raises_witness :
  parse_from 0 0 [0] ["Mesh file path:   "; "Tol: 1"]
  = Err (NotEnoughValues 2 1).
Proof.
  exact (X13_empty_value_raises 0 0 0 [] "Mesh file path:   " ["Tol: 1"]
           "Mesh file path" (le_n 0) eq_refl eq_refl eq_refl eq_refl
           eq_refl).
Defined.

End Exceptions.

(** ** The lines of the output *)

Section OutputLines.
Import DataNode.

(** X14.  A root whose children all have no children, at least one: after
    the opening tag of the root, an empty line and the opening tag of the
    general simulation parameters come the inline tags of the children and
    then the closing tag of the root.  The general simulation parameters
    are not closed. *)
Theorem X14_root_without_block :
  forall (root : t),
    is_root root = true ->
    children root <> [] ->
    Forall (fun n => children n = []) (children root) ->
    format_for_xml root
    = XmlList
        ((if level root =? 1 then [nl] else [])
         ++ [open_tag root; nl; gen_sim_params_open]
         ++ map inline_tag (children root)
         ++ [close_tag root])%list.
Proof.
  intros root Hroot Hkids Hleaves.
  rewrite (format_for_xml_block root Hkids), Hroot.
  pose proof (format_children_leading format_for_xml (children root) [])
    as E.
  rewrite app_nil_r in E. rewrite E.
  - rewrite (emit_leaves _ Hleaves). cbn [format_children app].
    rewrite app_nil_r. reflexivity.
  - eapply Forall_impl; [| exact Hleaves].
    intros n Hn. unfold has_children. now rewrite Hn.
Qed.

Lemma X14_root_without_block_witness :
  let root :=
    mk "svFSIFile" "0.1" true 0 2 [leaf "Tol" "1" 1; leaf "Debug" "0" 1] in
  format_for_xml root
  = XmlList
      ((if level root =? 1 then [nl] else [])
       ++ [open_tag root; nl; gen_sim_params_open]
       ++ map inline_tag (children root)
       ++ [close_tag root])%list.
Proof.
  cbv zeta.
  apply (X14_root_without_block
           (mk "svFSIFile" "0.1" true 0 2
              [leaf "Tol" "1" 1; leaf "Debug" "0" 1]));
    [reflexivity | discriminate | repeat constructor].
Defined.

(** X15.  A node that is not the root, with children and a key that is not
    in the table of attributes: its lines are the opening tag [<key>], the
    lines of its children in order and the closing tag [</key>], both tags
    with one tab less than the level, after an empty line when the node is
    at level one.  The value of the node is not written. *)
Theorem X15_plain_block :
  forall (n : t),
    get key_to_attr (key n) = None ->
    is_root n = false ->
    children n <> [] ->
    format_for_xml n
    = XmlList
        ((if level n =? 1 then [nl] else [])
         ++ [(PyStr.repeat tab (level n - 1) ++ "<" ++ key n ++ ">"
              ++ nl)%string]
         ++ emit_children (children n)
         ++ [(PyStr.repeat tab (level n - 1) ++ "</" ++ key n ++ ">"
              ++ nl)%string])%list.
Proof.
  intros n Hkey Hroot Hkids.
  rewrite (format_for_xml_block n Hkids), Hroot.
  unfold open_tag, close_tag. rewrite Hkey.
  rewrite format_children_inner. reflexivity.
Qed.

Lemma X15_plain_block_witness :
  let n := mk "Remesher" "Tetgen" false 2 3 [leaf "Max_edge_size" "0.7" 3] in
  format_for_xml n
  = XmlList
      ((if level n =? 1 then [nl] else [])
       ++ [(PyStr.repeat tab (level n - 1) ++ "<" ++ key n ++ ">"
            ++ nl)%string]
       ++ emit_children (children n)
       ++ [(PyStr.repeat tab (level n - 1) ++ "</" ++ key n ++ ">"
            ++ nl)%string])%list.
Proof.
  cbv zeta.
  apply (X15_plain_block
           (mk "Remesher" "Tetgen" false 2 3
              [leaf "Max_edge_size" "0.7" 3]));
    [reflexivity | reflexivity | discriminate].
Defined.

Lemma prefix_tabs_append (a : nat) (s : string) :
  prefix (PyStr.repeat tab a) (PyStr.repeat tab a ++ s) = true.
Proof.
  induction a as [| a IH]; cbn [PyStr.repeat append prefix].
  - apply prefix_empty.
  - destruct (ascii_dec tab tab) as [_ | N]; [exact IH | contradiction].
Qed.

Lemma prefix_tabs_le (a b : nat) (s : string) :
  a <= b ->
  prefix (PyStr.repeat tab b) s = true ->
  prefix (PyStr.repeat tab a) s = true.
Proof.
  revert b s. induction a as [| a IH]; intros b s Hab H.
  - apply prefix_empty.
  - destruct b as [| b]; [lia |]. cbn [PyStr.repeat] in H |- *.
    destruct s as [| c s]; [discriminate |].
    cbn [prefix] in H |- *.
    destruct (ascii_dec tab c); [| discriminate].
    apply (IH b); [lia | exact H].
Qed.

Lemma open_tag_indented (n : t) :
  prefix (PyStr.repeat tab (level n - 1)) (open_tag n) = true.
Proof.
  unfold open_tag. destruct (get key_to_attr (key n));
    apply prefix_tabs_append.
Qed.

(** X16.  In the lines of a node of a parsed tree at level [lvl], every
    line begins with at least [lvl - 1] tabs: no line of what is inside a
    block is indented less than the tags of the block. *)
Theorem X16_lines_indented :
  forall (n : t) (lvl : nat),
    well_formed lvl n = true ->
    Forall (fun s => prefix (PyStr.repeat tab (lvl - 1)) s = true)
      (emit (format_for_xml n)).
Proof.
  induction n as [k v r l lp kids IH] using tree_ind. intros lvl Hwf.
  cbn [well_formed] in Hwf.
  apply andb_prop in Hwf as [Hwf Hkids]. apply andb_prop in Hwf as [Hwf _].
  apply andb_prop in Hwf as [Hl Hr].
  apply Nat.eqb_eq in Hl. subst l. apply negb_true_iff in Hr. subst r.
  destruct kids as [| c kids].
  - cbn [format_for_xml children emit extend_or_append app].
    constructor; [| constructor].
    apply (prefix_tabs_append (lvl - 1)).
  - rewrite format_for_xml_block by discriminate.
    cbn [children level is_root emit extend_or_append app].
    rewrite format_children_inner.
    apply Forall_app. split.
    { destruct (lvl =? 1) eqn:E; constructor; [| constructor].
      apply Nat.eqb_eq in E. subst lvl. reflexivity. }
    constructor;
      [apply (open_tag_indented (mk k v false lvl lp (c :: kids))) |].
    apply Forall_app. split;
      [| constructor; [apply (prefix_tabs_append (lvl - 1)) | constructor]].
    apply Forall_flat_map.
    rewrite forallb_forall in Hkids. rewrite Forall_forall in IH |- *.
    intros a Ha. specialize (IH a Ha (S lvl) (Hkids a Ha)).
    eapply Forall_impl; [| exact IH].
    intros s Hs. apply (prefix_tabs_le (lvl - 1) (S lvl - 1)); [lia | exact Hs].
Qed.

Lemma X16_lines_indented_witness :
  Forall (fun s => prefix (PyStr.repeat tab (2 - 1)) s = true)
    (emit (format_for_xml
             (mk "Domain" "1" false 2 2 [leaf "Density" "1.0" 3]))).
Proof.
  exact (X16_lines_indented
           (mk "Domain" "1" false 2 2 [leaf "Density" "1.0" 3]) 2 eq_refl).
Defined.

End OutputLines.

(** ** The comparison with a reference file *)

Section Comparison.
Import CompareConversion.

Lemma list_eqb_eq (xs ys : list string) :
  list_eqb xs ys = true <-> xs = ys.
Proof.
  revert ys. induction xs as [| x xs IH]; intros [| y ys];
    cbn [list_eqb]; split; try discriminate; try reflexivity.
  - intros H. apply andb_prop in H as [Hx Hxs].
    apply String.eqb_eq in Hx. apply IH in Hxs. now subst.
  - intros H. injection H as -> ->.
    rewrite String.eqb_refl. apply IH. reflexivity.
Qed.

Lemma nth_error_skipn_cons {A : Type} (l : list A) (i : nat) (x : A) :
  nth_error l i = Some x -> skipn i l = x :: skipn (S i) l.
Proof.
  revert l. induction i as [| i IH]; intros [| y l] H; try discriminate.
  - injection H as ->. reflexivity.
  - cbn [nth_error] in H. cbn [skipn]. rewrite (IH l H). reflexivity.
Qed.

Lemma nth_error_skipn_nil {A : Type} (l : list A) (i : nat) :
  nth_error l i = None -> skipn i l = [].
Proof.
  intros H. apply nth_error_None in H. now apply skipn_all2.
Qed.

(** The loop raises when, and only when, the converted lines go on after
    the end of the reference lines. *)
Lemma compare_loop_raises (xml_conv xml_ref : list string) :
  forall idx,
    snd (compare_loop idx xml_conv xml_ref) = None
    <-> List.length xml_conv <= List.length (skipn idx xml_ref).
Proof.
  induction xml_conv as [| line conv IH]; intros idx; cbn [compare_loop].
  - split; [cbn; lia | reflexivity].
  - destruct (nth_error xml_ref idx) as [ref |] eqn:Hnth.
    + rewrite (nth_error_skipn_cons _ _ _ Hnth). cbn [List.length].
      specialize (IH (S idx)).
      destruct (compare_loop (S idx) conv xml_ref) as [more raised].
      cbn [snd] in IH |- *. rewrite IH. lia.
    + rewrite (nth_error_skipn_nil _ _ Hnth). cbn.
      split; [discriminate | lia].
Qed.

(** The loop prints nothing and raises nothing when, and only when, the
    converted lines are the reference lines from [idx] on, or the first of
    them. *)
Lemma compare_loop_silent (xml_conv xml_ref : list string) :
  forall idx,
    compare_loop idx xml_conv xml_ref = ([], None)
    <-> firstn (List.length xml_conv) (skipn idx xml_ref) = xml_conv.
Proof.
  induction xml_conv as [| line conv IH]; intros idx; cbn [compare_loop].
  - split; reflexivity.
  - destruct (nth_error xml_ref idx) as [ref |] eqn:Hnth.
    + rewrite (nth_error_skipn_cons _ _ _ Hnth). cbn [List.length firstn].
      specialize (IH (S idx)).
      destruct (compare_loop (S idx) conv xml_ref) as [more raised].
      destruct (String.eqb_spec line ref) as [-> | Hne]; cbn [negb app].
      * split; intros H.
        -- apply IH in H. rewrite H. reflexivity.
        -- injection H as H. apply IH, H.
      * split; [discriminate |]. intros H. injection H as H _.
        symmetry in H. contradiction.
    + rewrite (nth_error_skipn_nil _ _ Hnth). cbn.
      split; discriminate.
Qed.

(** What the loop prints comes by three lines. *)
Lemma compare_loop_printed (xml_conv xml_ref : list string) :
  forall idx,
    exists k,
      List.length (fst (compare_loop idx xml_conv xml_ref)) = 3 * k.
Proof.
  induction xml_conv as [| line conv IH]; intros idx; cbn [compare_loop].
  - exists 0. reflexivity.
  - destruct (nth_error xml_ref idx) as [ref |]; [| exists 0; reflexivity].
    destruct (IH (S idx)) as (k & Hk).
    destruct (compare_loop (S idx) conv xml_ref) as [more raised].
    cbn [fst] in Hk |- *. rewrite length_app, Hk.
    destruct (negb (String.eqb line ref)); cbn [List.length].
    + exists (S k). lia.
    + exists k. lia.
Qed.

Lemma converted_length (conv_lines : list string) :
  List.length (converted conv_lines)
  = List.length (read_stripped conv_lines).
Proof. unfold converted, remove_spaces. apply length_map. Qed.

Lemma reference_length (ref_lines : list string) :
  List.length (reference ref_lines) = List.length (read_stripped ref_lines).
Proof. unfold reference, remove_spaces. now rewrite !length_map. Qed.

(** X17.  [compare_conversion] raises [IndexError] when, and only when,
    the converted file has more lines that are not blank than the
    reference file. *)
Theorem X17_comparison_raises :
  forall (conv_lines ref_lines : list string),
    snd (compare_conversion conv_lines ref_lines) = Some IndexError
    <-> List.length (read_stripped ref_lines)
        < List.length (read_stripped conv_lines).
Proof.
  intros conv_lines ref_lines. unfold compare_conversion.
  rewrite <- (converted_length conv_lines), <- (reference_length ref_lines).
  pose proof (compare_loop_raises (converted conv_lines)
                (reference ref_lines) 0) as H.
  cbn [skipn] in H.
  destruct (compare_loop 0 (converted conv_lines) (reference ref_lines))
    as [printed [[] |]]; cbn [snd] in H |- *.
  - split; [| reflexivity]. intros _.
    destruct H as [_ H].
    apply Nat.nle_gt. intros Hle. specialize (H Hle). discriminate.
  - destruct H as [H _]. specialize (H eq_refl).
    destruct (list_eqb (converted conv_lines) (reference ref_lines));
      cbn [snd]; split; (discriminate || lia).
Qed.

Lemma X17_comparison_raises_witness :
  snd (compare_conversion ["<a> 1 </a>"; ""; "<b> 2 </b>"] ["<a> 1 </a>"])
  = Some IndexError.
Proof.
  apply (X17_comparison_raises ["<a> 1 </a>"; ""; "<b> 2 </b>"]
           ["<a> 1 </a>"]).
  vm_compute. lia.
Defined.

(** X18.  [compare_conversion] prints that the conversion is successful,
    and nothing else, when, and only when, the two files have the same
    lines once blank lines, the blanks around a line and the spaces are
    taken away and the boolean words of the reference are replaced. *)
Theorem X18_comparison_successful :
  forall (conv_lines ref_lines : list string),
    compare_conversion conv_lines ref_lines
    = (["Conversion successful"], None)
    <-> converted conv_lines = reference ref_lines.
Proof.
  intros conv_lines ref_lines. unfold compare_conversion.
  pose proof (compare_loop_silent (converted conv_lines)
                (reference ref_lines) 0) as Hsilent.
  pose proof (compare_loop_printed (converted conv_lines)
                (reference ref_lines) 0) as (k & Hk).
  cbn [skipn] in Hsilent.
  destruct (compare_loop 0 (converted conv_lines) (reference ref_lines))
    as [printed [[] |]]; cbn [fst] in Hk.
  - split; [discriminate |]. intros H.
    rewrite H, firstn_all in Hsilent.
    destruct Hsilent as [_ Hs]. specialize (Hs eq_refl). discriminate.
  - destruct (list_eqb (converted conv_lines) (reference ref_lines))
      eqn:Heq.
    + apply list_eqb_eq in Heq. split; [intros _; exact Heq |].
      intros _. rewrite Heq, firstn_all in Hsilent.
      destruct Hsilent as [_ Hs]. specialize (Hs eq_refl).
      injection Hs as ->. reflexivity.
    + split.
      * intros H. injection H as ->. cbn in Hk. lia.
      * intros H. apply list_eqb_eq in H. rewrite H in Heq. discriminate.
Qed.

Lemma X18_comparison_successful_witness :
  compare_conversion ["<Coupled> 1 </Coupled>"; ""]
    ["  <Coupled>true</Coupled>"]
  = (["Conversion successful"], None).
Proof.
  apply (X18_comparison_successful ["<Coupled> 1 </Coupled>"; ""]
           ["  <Coupled>true</Coupled>"]).
  reflexivity.
Defined.

(** X19.  [compare_conversion] prints nothing and raises nothing when, and
    only when, the lines of the converted file, as they are compared, are
    the first lines of the reference and the reference has more lines: a
    converted file that stops early is not reported. *)
Theorem X19_comparison_silent :
  forall (conv_lines ref_lines : list string),
    compare_conversion conv_lines ref_lines = ([], None)
    <-> exists line more,
          reference ref_lines
          = (converted conv_lines ++ line :: more)%list.
Proof.
  intros conv_lines ref_lines. unfold compare_conversion.
  pose proof (compare_loop_silent (converted conv_lines)
                (reference ref_lines) 0) as Hsilent.
  cbn [skipn] in Hsilent.
  destruct (compare_loop 0 (converted conv_lines) (reference ref_lines))
    as [printed [[] |]].
  - split; [discriminate |]. intros (line & more & H).
    rewrite H, firstn_app, Nat.sub_diag, firstn_all in Hsilent.
    cbn [firstn] in Hsilent. rewrite app_nil_r in Hsilent.
    destruct Hsilent as [_ Hs]. specialize (Hs eq_refl). discriminate.
  - destruct (list_eqb (converted conv_lines) (reference ref_lines))
      eqn:Heq.
    + apply list_eqb_eq in Heq. split.
      * intros H. injection H as H. destruct printed; discriminate.
      * intros (line & more & H). rewrite H in Heq.
        apply (f_equal (@List.length string)) in Heq.
        rewrite length_app in Heq. cbn [List.length] in Heq. lia.
    + split.
      * intros H. destruct Hsilent as [Hs _]. specialize (Hs H).
        destruct (skipn (List.length (converted conv_lines))
                    (reference ref_lines)) as [| line more] eqn:Hrest.
        -- exfalso.
           pose proof (firstn_skipn (List.length (converted conv_lines))
                         (reference ref_lines)) as E.
           rewrite Hs, Hrest, app_nil_r in E.
           apply list_eqb_eq in E. rewrite E in Heq. discriminate.
        -- exists line, more.
           rewrite <- (firstn_skipn (List.length (converted conv_lines))
                         (reference ref_lines)) at 1.
           rewrite Hs, Hrest. reflexivity.
      * intros (line & more & H).
        rewrite H, firstn_app, Nat.sub_diag, firstn_all in Hsilent.
        cbn [firstn] in Hsilent. rewrite app_nil_r in Hsilent.
        destruct Hsilent as [_ Hs]. specialize (Hs eq_refl).
        injection Hs as ->. reflexivity.
Qed.

Lemma X19_comparison_silent_witness :
  compare_conversion ["<a> 1 </a>"] ["<a> 1 </a>"; "<b> 2 </b>"]
  = ([], None).
Proof.
  apply (X19_comparison_silent ["<a> 1 </a>"]
           ["<a> 1 </a>"; "<b> 2 </b>"]).
  exists "<b>2</b>", []. reflexivity.
Defined.

End Comparison.

(** ** Blocks on one line *)

Section InlineBlocks.
Import DataNode.

Lemma prefix_space_brace (c : ascii) (s : string) :
  prefix " {" (String c s) = true -> c = " "%char /\ prefix "{" s = true.
Proof.
  cbn [prefix]. destruct (ascii_dec " " c) as [<- | _]; [| discriminate].
  intros H. split; [reflexivity |]. destruct s as [| d s]; [discriminate |].
  exact H.
Qed.

Lemma split_go_brace_step (c : ascii) (s : string) :
  prefix " {" (String c s) = false ->
  split_go " {" 0 (String c s)
  = let (p, ps) := split_go " {" 0 s in (String c p, ps).
Proof. intros H. cbn [split_go]. rewrite H. reflexivity. Qed.

Lemma split_brace_none (w : string) :
  contains_str " {" w = false -> split " {" w = [w].
Proof.
  unfold split. induction w as [| c w IH]; intros H; [reflexivity |].
  cbn [contains_str] in H.
  destruct (prefix " {" (String c w)) eqn:Hp; [discriminate |].
  rewrite (split_go_brace_step c w Hp). specialize (IH H).
  destruct (split_go " {" 0 w) as [p ps]. injection IH as -> ->.
  reflexivity.
Qed.

Lemma split_brace_first (u w : string) :
  contains_str " {" u = false ->
  split " {" (u ++ " {" ++ w) = u :: split " {" w.
Proof.
  unfold split. induction u as [| c u IH]; intros H.
  - cbn [append split_go prefix String.length Nat.sub].
    destruct (ascii_dec " " " ") as [_ | N]; [| contradiction].
    destruct (ascii_dec "{" "{") as [_ | N]; [| contradiction].
    rewrite prefix_empty. destruct (split_go " {" 0 w). reflexivity.
  - cbn [contains_str] in H.
    destruct (prefix " {" (String c u)) eqn:Hp; [discriminate |].
    change (String c u ++ " {" ++ w) with (String c (u ++ " {" ++ w)).
    rewrite split_go_brace_step.
    + specialize (IH H).
      destruct (split_go " {" 0 (u ++ " {" ++ w)) as [p ps].
      destruct (split_go " {" 0 w) as [q qs].
      injection IH as -> ->. reflexivity.
    + destruct (prefix " {" (String c (u ++ " {" ++ w))) eqn:Hp';
        [| reflexivity].
      apply prefix_space_brace in Hp' as [-> Hb].
      destruct u as [| d u]; [discriminate |].
      cbn [prefix append] in Hb, Hp. rewrite prefix_empty in Hb, Hp.
      destruct (ascii_dec " " " ") as [_ | N]; [| contradiction].
      destruct (ascii_dec "{" d); discriminate.
Qed.

Lemma contains_brace_after (s w : string) :
  contains "{" (s ++ " {" ++ w) = true.
Proof.
  rewrite contains_append. cbn [append contains].
  rewrite Ascii.eqb_refl. cbn. apply orb_true_r.
Qed.

(** X20.  A block on one line, [key: value {subkey: subvalue}]: when the
    line has no other space followed by an opening brace and does not end
    with an opening brace, the loop makes one node of [key] and [value]
    with one child and goes on at the next line.  The child is made of the
    text after the brace as it is: its key is the text up to the first
    colon followed by a space, and its value is the rest with every closing
    brace taken away. *)
Theorem X20_block_on_one_line :
  forall (level idx c : nat) (parents : counters) (raw : string)
         (rest : list string) (k v sk sv : string),
    c <= idx ->
    strip raw = (k ++ ": " ++ v) ++ " {" ++ (sk ++ ": " ++ sv) ->
    opens_block (strip raw) = false ->
    startswith "#" (strip raw) = false ->
    contains_str " {" (k ++ ": " ++ v) = false ->
    contains_str " {" (sk ++ ": " ++ sv) = false ->
    partition ": " k = None ->
    partition ": " sk = None ->
    parse_from level idx (c :: parents) (raw :: rest)
    = ('(more, cs) <- parse_from level (S idx) (S c :: map S parents) rest ;;
       Ok (append_child (__init__ k v (level + 1) false)
             (__init__ sk (replace "}" "" sv) (level + 2) false)
           :: more, cs)).
Proof.
  intros level idx c parents raw rest k v sk sv
         Hc Hline Hlast Hhash Hnode Hsub Hk Hsk.
  assert (Hs : is_skipped raw = false).
  { unfold is_skipped. rewrite Hhash, Hline. destruct k; reflexivity. }
  assert (Hopen : contains "{" (strip raw) = true).
  { rewrite Hline. apply contains_brace_after. }
  rewrite parse_from_inline by assumption.
  rewrite Hline, (split_brace_first _ _ Hnode), (split_brace_none _ Hsub).
  cbn [unpack2 bind].
  rewrite (split1_key_value k v Hk). cbn [unpack2 bind].
  rewrite (split1_key_value sk sv Hsk). cbn [unpack2 bind].
  rewrite update_lines_parsed_map. reflexivity.
Qed.

Lemma X20_block_on_one_line_witness :
  parse_from 1 0 [0; 4] ["   Viscosity: Constant {Value: 0.04}"; "}"]
  = ('(more, cs) <- parse_from 1 1 [1; 5] ["}"] ;;
     Ok (append_child (__init__ "Viscosity" "Constant" (1 + 1) false)
           (__init__ "Value" (replace "}" "" "0.04}") (1 + 2) false)
         :: more, cs)).
Proof.
  exact (X20_block_on_one_line 1 0 0 [4]
           "   Viscosity: Constant {Value: 0.04}" ["}"]
           "Viscosity" "Constant" "Value" "0.04}"
           (le_n 0) eq_refl eq_refl eq_refl eq_refl eq_refl eq_refl
           eq_refl).
Defined.

End InlineBlocks.
